(** * Change detection and workflow cache of [backend/agent.py]

    A shallow embedding of the change-detection engine of the repository:
    the canonicalizer ([_stable_csv], [_sha256]), the two detectors
    ([detect_checks_changes], [detect_schema_changes]), the workflow cache
    ([load_workflows], [save_workflows]), target normalization
    ([parse_targets]) and the scheduling and compilation loop of [main].

    Modelling conventions.
    - Python [str] is [string]; the text handled is taken to be ASCII, so
      [lower], [strip] and the ordering of strings are the ASCII ones.
    - Python values that reach the code from JSON are the type [value];
      floating point numbers other than pandas' missing marker are not
      modelled.
    - The file system, the clock and the write log form the record [world];
      code that reads or writes files is a function in the monad [io], which
      threads the world and may raise.
    - Text files are opened as the code opens them, in text mode with the
      default [newline=None], on a system whose line separator is LF: a
      write stores the characters as given, a read turns every CR LF and
      every remaining CR into LF ([universal_newlines]). *)

From Stdlib Require Import ZArith Ascii String List Sorted Permutation.
From stdpp Require Import base gmap strings list sorting pretty.

Set Warnings "-register-all".
Open Scope string_scope.

(** ** Python builtins used by the code *)
Module Py.

(** The double quote character. *)
Definition DQ : ascii := "034"%char.

(** [str.isspace] on the ASCII range: TAB..CR, FS..US and the space. *)
Definition is_space (c : ascii) : bool :=
  let n := N_of_ascii c in
  ((9 <=? n) && (n <=? 13) || (28 <=? n) && (n <=? 32))%N.

Fixpoint lstrip (s : string) : string :=
  match s with
  | EmptyString => EmptyString
  | String c s' => if is_space c then lstrip s' else s
  end.

Fixpoint rstrip (s : string) : string :=
  match s with
  | EmptyString => EmptyString
  | String c s' =>
      match rstrip s' with
      | EmptyString => if is_space c then EmptyString else String c EmptyString
      | r => String c r
      end
  end.

(** [s.strip()] *)
Definition strip (s : string) : string := rstrip (lstrip s).

Definition lower_char (c : ascii) : ascii :=
  let n := N_of_ascii c in
  if ((65 <=? n) && (n <=? 90))%N then ascii_of_N (n + 32) else c.

(** [s.lower()] *)
Fixpoint lower (s : string) : string :=
  match s with
  | EmptyString => EmptyString
  | String c s' => String (lower_char c) (lower s')
  end.

(** [s.split(sep)] for a one-character separator: never the empty list. *)
Fixpoint split (sep : ascii) (s : string) : list string :=
  match s with
  | EmptyString => [EmptyString]
  | String c s' =>
      if decide (c = sep) then EmptyString :: split sep s'
      else match split sep s' with
           | h :: t => String c h :: t
           | [] => [String c EmptyString]
           end
  end.

(** [sep.join(l)] *)
Definition join (sep : string) (l : list string) : string := String.concat sep l.

(** [c in s] for a character. *)
Fixpoint contains (c : ascii) (s : string) : bool :=
  match s with
  | EmptyString => false
  | String c' s' => bool_decide (c = c') || contains c s'
  end.

(** What [f.read()] returns for a file opened with [open(p, "r")] whose
    content is [s]: text mode translates CR LF and a lone CR to LF. *)
Fixpoint universal_newlines (s : string) : string :=
  match s with
  | EmptyString => EmptyString
  | String c s' =>
      if bool_decide (c = "013"%char)
      then String "010"
             match s' with
             | String c' s'' =>
                 if bool_decide (c' = "010"%char) then universal_newlines s''
                 else universal_newlines s'
             | EmptyString => EmptyString
             end
      else String c (universal_newlines s')
  end.

(** Truthiness of a string: non-empty. *)
Definition truthy (s : string) : bool :=
  match s with EmptyString => false | _ => true end.

(** [sorted(l)] on strings: ascending, by code point. *)
Definition sorted (l : list string) : list string := merge_sort String.le l.

(** A value as [json.load] and pandas hand it to the code. [VNaN] is the
    marker pandas puts in a cell that has no value. *)
Inductive value : Type :=
| VNone
| VNaN
| VBool (b : bool)
| VInt (n : Z)
| VStr (s : string)
| VList (l : list value)
| VDict (d : list (string * value)).

Definition hex_digit (n : N) : ascii :=
  match n with
  | 0 => "0" | 1 => "1" | 2 => "2" | 3 => "3" | 4 => "4" | 5 => "5"
  | 6 => "6" | 7 => "7" | 8 => "8" | 9 => "9" | 10 => "a" | 11 => "b"
  | 12 => "c" | 13 => "d" | 14 => "e" | _ => "f"
  end%N%char.

Definition hex2 (c : ascii) : string :=
  let n := N_of_ascii c in
  String (hex_digit (n / 16)) (String (hex_digit (n mod 16)) EmptyString).

Definition is_printable (c : ascii) : bool :=
  let n := N_of_ascii c in ((32 <=? n) && (n <=? 126))%N.

(** The body of [repr(s)] for a string, between the quotes [q]. *)
Fixpoint repr_body (q : ascii) (s : string) : string :=
  match s with
  | EmptyString => EmptyString
  | String c s' =>
      (if decide (c = q) then String "\" (String c EmptyString)
       else if decide (c = "\"%char) then "\\"
       else if decide (c = "009"%char) then "\t"
       else if decide (c = "010"%char) then "\n"
       else if decide (c = "013"%char) then "\r"
       else if is_printable c then String c EmptyString
       else "\x" +:+ hex2 c) +:+ repr_body q s'
  end.

(** [repr(s)]: single quotes, unless [s] has a single quote and no double
    quote. *)
Definition repr_str (s : string) : string :=
  let q := if contains "'" s && negb (contains DQ s) then DQ else "'"%char in
  String q (repr_body q s +:+ String q EmptyString).

(** [repr(v)] *)
Fixpoint repr (v : value) : string :=
  match v with
  | VNone => "None"
  | VNaN => "nan"
  | VBool true => "True"
  | VBool false => "False"
  | VInt n => pretty n
  | VStr s => repr_str s
  | VList l => "[" +:+ join ", " (map repr l) +:+ "]"
  | VDict d =>
      "{" +:+ join ", " (map (fun kv => match kv with
                                        | (k, x) => repr_str k +:+ ": " +:+ repr x
                                        end) d) +:+ "}"
  end.

(** [str(v)], also what an f-string and [astype(str)] produce. *)
Definition str (v : value) : string :=
  match v with
  | VStr s => s
  | _ => repr v
  end.

(** A string between double quotes as [json.dumps] writes it
    ([ensure_ascii] is on). *)
Fixpoint json_body (s : string) : string :=
  match s with
  | EmptyString => EmptyString
  | String c s' =>
      (if decide (c = DQ) then String "\" (String c EmptyString)
       else if decide (c = "\"%char) then "\\"
       else if decide (c = "010"%char) then "\n"
       else if decide (c = "013"%char) then "\r"
       else if decide (c = "009"%char) then "\t"
       else if decide (c = "012"%char) then "\f"
       else if decide (c = "008"%char) then "\b"
       else if is_printable c then String c EmptyString
       else "\u00" +:+ hex2 c) +:+ json_body s'
  end.

Definition json_str (s : string) : string :=
  String DQ (json_body s +:+ String DQ EmptyString).

(** Order of the items of a dict under [sort_keys=True]. *)
Definition key_le (a b : string * string) : Prop := String.le a.1 b.1.

#[global] Instance key_le_dec : RelDecision key_le.
Proof. intros a b. unfold key_le. apply _. Defined.

(** [json.dumps(v, sort_keys=True)] with the default separators. *)
Fixpoint json_dumps (v : value) : string :=
  match v with
  | VNone => "null"
  | VNaN => "NaN"
  | VBool true => "true"
  | VBool false => "false"
  | VInt n => pretty n
  | VStr s => json_str s
  | VList l => "[" +:+ join ", " (map json_dumps l) +:+ "]"
  | VDict d =>
      let items := map (fun kv => match kv with
                                  | (k, x) => (k, json_dumps x)
                                  end) d in
      "{" +:+ join ", " (map (fun kv => json_str kv.1 +:+ ": " +:+ kv.2)
                             (merge_sort key_le items)) +:+ "}"
  end.

End Py.
Export Py.

(** ** The part of pandas the code uses *)
Module Pandas.

(** A frame: its column labels in order, and its rows. A row maps a column
    label to the cell; a column without an entry in the row holds pandas'
    missing marker, as in [pd.DataFrame(list_of_dicts)]. *)
Record DataFrame : Type := { columns : list string; rows : list (gmap string value) }.

(** [pd.DataFrame()] *)
Definition no_frame : DataFrame := {| columns := []; rows := [] |}.

(** [df.empty]: some axis has length 0. *)
Definition is_empty (df : DataFrame) : bool :=
  match columns df, rows df with
  | [], _ | _, [] => true
  | _, _ => false
  end.

Definition cell (r : gmap string value) (c : string) : value := default VNaN (r !! c).

(** [row.get(k)] on a Series and [d.get(k)] on a dict. *)
Definition get (d : gmap string value) (k : string) : value := default VNone (d !! k).

(** The rows [df.iterrows()] yields, each a Series indexed by the columns;
    [row.to_dict()] is the same mapping. *)
Definition iterrows (df : DataFrame) : list (gmap string value) :=
  map (fun r => list_to_map (map (fun c => (c, cell r c)) (columns df))) (rows df).

(** [df[cols]] *)
Definition select (cols : list string) (df : DataFrame) : DataFrame :=
  {| columns := cols; rows := rows df |}.

(** [df[c] = df[c].apply(f)] for every column [c]. *)
Definition apply_cells (f : value -> value) (df : DataFrame) : DataFrame :=
  {| columns := columns df; rows := map (fmap f) (rows df) |}.

(** [df.astype(str)], row by row. *)
Definition astype_str (df : DataFrame) : list (list string) :=
  map (fun r => map (fun c => str (cell r c)) (columns df)) (rows df).

Definition by_key {A : Type} (a b : string * A) : Prop := String.le a.1 b.1.

#[global] Instance by_key_dec {A : Type} : RelDecision (@by_key A).
Proof. intros a b. unfold by_key. apply _. Defined.

(** [df.sort_values(k)] where [keys] is the column [k], given by position. *)
Definition sort_values (keys : list string) (df : DataFrame) : DataFrame :=
  {| columns := columns df;
     rows := map snd (merge_sort by_key (zip keys (rows df))) |}.

(** [df.drop(columns=[c])] *)
Definition drop_column (c : string) (df : DataFrame) : DataFrame :=
  {| columns := filter (fun c' => c' <> c) (columns df); rows := rows df |}.

Definition LF : string := String "010" EmptyString.

(** A cell as [to_csv] writes it before quoting: missing values are empty. *)
Definition csv_text (v : value) : string :=
  match v with
  | VNone | VNaN => EmptyString
  | _ => str v
  end.

Definition needs_quote (s : string) : bool :=
  contains "," s || contains DQ s || contains "010" s || contains "013" s.

Fixpoint double_quotes (s : string) : string :=
  match s with
  | EmptyString => EmptyString
  | String c s' =>
      if decide (c = DQ) then String c (String c (double_quotes s'))
      else String c (double_quotes s')
  end.

(** A field under [csv.QUOTE_MINIMAL]. *)
Definition csv_field (s : string) : string :=
  if needs_quote s then String DQ (double_quotes s +:+ String DQ EmptyString) else s.

(** One record and its line terminator; a record of a single empty field is
    written as a pair of quotes. *)
Definition csv_record (fields : list string) : string :=
  match fields with
  | [EmptyString] => String DQ (String DQ EmptyString)
  | _ => join "," (map csv_field fields)
  end +:+ LF.

Definition csv_row (cols : list string) (r : gmap string value) : string :=
  csv_record (map (fun c => csv_text (cell r c)) cols).

(** [df.to_csv(index=False, lineterminator=LF)] *)
Definition to_csv (df : DataFrame) : string :=
  csv_record (columns df) +:+ join EmptyString (map (csv_row (columns df)) (rows df)).

End Pandas.
Export Pandas.

(** ** Canonicalizer (agent.py, lines 26-43) *)

(** The lambda of line 35. *)
Definition jsonify (x : value) : value :=
  match x with
  | VList _ | VDict _ => VStr (json_dumps x)
  | _ => x
  end.

(** The [_sortkey] column of line 37, computed from the frame before the
    column is assigned. *)
Definition sortkeys (df2 : DataFrame) : list string :=
  map (join "|") (astype_str df2).

Definition _stable_csv (df : DataFrame) : string :=
  let cols := sorted (columns df) in
  let df2 := select cols df in
  let df2 := apply_cells jsonify df2 in
  let df2 := drop_column "_sortkey" (sort_values (sortkeys df2) df2) in
  to_csv df2.


(** ** The world the program runs in *)

Inductive exn : Type :=
| FileNotFoundError
| JSONDecodeError
| ParserError
| AgentError (msg : string).

(** What a read finds at a path: no file, a file the reader rejects
    ([json.load], [pd.DataFrame] or [pd.read_csv] raises), or the value read. *)
Inductive stored (A : Type) : Type :=
| Missing
| Unreadable
| Holds (a : A).
Arguments Missing {A}.
Arguments Unreadable {A}.
Arguments Holds {A} a.

Inductive path : Type :=
| CHECKS_JSON
| CHECKS_LAST_CSV
| SCHEMA_COLS_CACHE
| WORKFLOW_CACHE.

(** [checks_json] is the registry as [pd.DataFrame(json.load(f))] yields it;
    [data_csv t] is [data/t.csv] as [pd.read_csv] yields it; the other three
    files are the persisted state, [checks_last_csv] being the characters
    the file holds. [written] logs every path opened for writing, most
    recent first; [clock] counts the readings of the clock. *)
Record world : Type := {
  checks_json : stored DataFrame;
  data_csv : string -> stored DataFrame;
  checks_last_csv : option string;
  schema_cols_cache : stored (gmap string (list string));
  workflow_cache : stored (gmap string value);
  written : list path;
  clock : nat
}.

Inductive outcome (A : Type) : Type :=
| Ok (a : A)
| Raise (e : exn).
Arguments Ok {A} a.
Arguments Raise {A} e.

Module IO.

Definition io (A : Type) : Type := world -> outcome A * world.

#[global] Instance io_ret : MRet io := fun A a w => (Ok a, w).

#[global] Instance io_bind : MBind io := fun A B k m w =>
  match m w with
  | (Ok a, w') => k a w'
  | (Raise e, w') => (Raise e, w')
  end.

Definition raise {A : Type} (e : exn) : io A := fun w => (Raise e, w).

(** [try: m  except Exception: h] *)
Definition try_except {A : Type} (m : io A) (h : exn -> io A) : io A := fun w =>
  match m w with
  | (Ok a, w') => (Ok a, w')
  | (Raise e, w') => h e w'
  end.

Definition gets {A : Type} (f : world -> A) : io A := fun w => (Ok (f w), w).

Definition modify (f : world -> world) : io unit := fun w => (Ok tt, f w).

(** [os.path.exists(p)] *)
Definition present {A : Type} (f : stored A) : bool :=
  match f with Missing => false | _ => true end.

(** [json.load(open(p))], [pd.read_csv(p)]: the value read, or an error. *)
Definition read_from {A : Type} (f : world -> stored A) (e : exn) : io A := fun w =>
  match f w with
  | Missing => (Raise FileNotFoundError, w)
  | Unreadable => (Raise e, w)
  | Holds a => (Ok a, w)
  end.

(** [open(p, "w")]: the file exists and is empty from here on, which no
    reader of JSON accepts; the write is logged. *)
Definition open_w (p : path) : io unit := modify (fun w =>
  {| checks_json := match p with CHECKS_JSON => Unreadable | _ => checks_json w end;
     data_csv := data_csv w;
     checks_last_csv := match p with CHECKS_LAST_CSV => Some EmptyString | _ => checks_last_csv w end;
     schema_cols_cache := match p with SCHEMA_COLS_CACHE => Unreadable | _ => schema_cols_cache w end;
     workflow_cache := match p with WORKFLOW_CACHE => Unreadable | _ => workflow_cache w end;
     written := p :: written w;
     clock := clock w |}).

(** [f.read()] on a text file holding [content], opened with
    [open(p, "r", encoding="utf-8")]. *)
Definition read_text (content : string) : string := universal_newlines content.

(** [f.write(s)] on [CHECKS_LAST_CSV], and closing the file. *)
Definition write_checks_last (s : string) : io unit := modify (fun w =>
  {| checks_json := checks_json w; data_csv := data_csv w;
     checks_last_csv := Some s;
     schema_cols_cache := schema_cols_cache w; workflow_cache := workflow_cache w;
     written := written w; clock := clock w |}).

(** [json.dump(m, f, indent=2)] on [SCHEMA_COLS_CACHE], and closing it. *)
Definition dump_schema_cols (m : gmap string (list string)) : io unit := modify (fun w =>
  {| checks_json := checks_json w; data_csv := data_csv w;
     checks_last_csv := checks_last_csv w;
     schema_cols_cache := Holds m; workflow_cache := workflow_cache w;
     written := written w; clock := clock w |}).

(** [json.dump(wf, f, indent=2)] on [WORKFLOW_CACHE], and closing it. *)
Definition dump_workflows (wf : gmap string value) : io unit := modify (fun w =>
  {| checks_json := checks_json w; data_csv := data_csv w;
     checks_last_csv := checks_last_csv w;
     schema_cols_cache := schema_cols_cache w; workflow_cache := Holds wf;
     written := written w; clock := clock w |}).

(** One reading of the clock. *)
Definition tick : io nat := fun w =>
  (Ok (clock w),
   {| checks_json := checks_json w; data_csv := data_csv w;
      checks_last_csv := checks_last_csv w;
      schema_cols_cache := schema_cols_cache w; workflow_cache := workflow_cache w;
      written := written w; clock := S (clock w) |}).

End IO.
Export IO.

(** ** agent.py *)
Section Agent.

(** [hashlib.sha256(b).hexdigest()], the oracle [use_agent] of
    backend/use_agent.py (it may raise), and the text
    [datetime.datetime.now(datetime.UTC).isoformat()] returns at each
    reading of the clock. *)
Variable sha256_hexdigest : string -> string.
Variable use_agent :
  gmap string value -> gmap string (list string) -> outcome (gmap string value).
Variable isoformat_now : nat -> string.

Definition _sha256 (s : string) : string := sha256_hexdigest s.

(** Lines 46-60. The coercion of date-like columns (lines 53-59) rewrites
    cells only and leaves the column labels as read. *)
Definition load_csv (name : string) : io DataFrame :=
  f ← gets (fun w => data_csv w name);
  if negb (present f) then mret no_frame
  else read_from (fun w => data_csv w name) ParserError.

(** The canonical text of the registry, lines 73-77. *)
Definition current_csv_of (checks_df : DataFrame) : string :=
  if is_empty checks_df then "check_id" +:+ LF else _stable_csv checks_df.

(** Lines 63-93. *)
Definition detect_checks_changes : io (bool * DataFrame) :=
  f ← gets checks_json;
  if negb (present f) then raise FileNotFoundError
  else
    checks_df ← read_from checks_json JSONDecodeError;
    let current_csv := current_csv_of checks_df in
    last ← gets checks_last_csv;
    match last with
    | None =>
        open_w CHECKS_LAST_CSV;; write_checks_last current_csv;;
        mret (true, checks_df)
    | Some content =>
        let last_csv := read_text content in
        let changed := bool_decide (_sha256 current_csv <> _sha256 last_csv) in
        (if changed
         then open_w CHECKS_LAST_CSV;; write_checks_last current_csv
         else mret tt);;
        mret (changed, checks_df)
    end.

(** The loop of lines 101-104. *)
Fixpoint observe_columns (tables : list string) (current : gmap string (list string))
  : io (gmap string (list string)) :=
  match tables with
  | [] => mret current
  | t :: tables' =>
      df ← load_csv t;
      observe_columns tables' (<[t := columns df]> current)
  end.

(** Lines 96-119. *)
Definition detect_schema_changes (tables : list string)
  : io (bool * gmap string (list string)) :=
  current ← observe_columns tables ∅;
  f ← gets schema_cols_cache;
  if negb (present f) then
    open_w SCHEMA_COLS_CACHE;; dump_schema_cols current;;
    mret (true, current)
  else
    prev ← read_from schema_cols_cache JSONDecodeError;
    let changed := bool_decide (prev <> current) in
    (if changed
     then open_w SCHEMA_COLS_CACHE;; dump_schema_cols current
     else mret tt);;
    mret (changed, current).

(** Lines 122-129. *)
Definition load_workflows : io (gmap string value) :=
  f ← gets workflow_cache;
  if negb (present f) then mret ∅
  else try_except (read_from workflow_cache JSONDecodeError) (fun _ => mret ∅).

(** Lines 132-134. *)
Definition save_workflows (wf : gmap string value) : io unit :=
  open_w WORKFLOW_CACHE;; dump_workflows wf.

(** Lines 137-139. *)
Definition key_for (check_row : gmap string value) : string :=
  str (get check_row "check_id") +:+ "::" +:+ str (get check_row "check_name").

(** Lines 142-154. *)
Definition parse_targets (target_table : value) : list string :=
  match target_table with
  | VNone => []
  | VList l => map (fun x => lower (strip (str x))) l
  | VStr s =>
      map (fun x => lower (strip x))
          (List.filter (fun x => truthy (strip x)) (split "," s))
  | _ => [lower (strip (str target_table))]
  end.

(** [set(parse_targets(row.get("target_table")))] *)
Definition targets_of (row : gmap string value) : gset string :=
  list_to_set (parse_targets (get row "target_table")).

(** Lines 168-175: the union of the target tables of the registry. *)
Definition target_tables_of (checks_df : DataFrame) : list string :=
  if is_empty checks_df then []
  else sorted (elements (⋃ (map targets_of (iterrows checks_df)))).

(** Lines 184-212: the checks that require (re)compilation. *)
Definition select_checks (checks_changed schema_changed : bool)
    (target_tables : list string) (checks_df : DataFrame) : list (gmap string value) :=
  if checks_changed || schema_changed then
    let changed_tables : gset string :=
      if schema_changed then list_to_set target_tables else ∅ in
    List.filter
      (fun row =>
         let targets := targets_of row in
         if checks_changed then true
         else bool_decide (targets ∩ changed_tables <> ∅))
      (iterrows checks_df)
  else [].

(** Line 219. *)
Definition schema_context_of (target_tables : list string)
    (current_schema : gmap string (list string)) : gmap string (list string) :=
  list_to_map (map (fun t => (t, default [] (current_schema !! t))) target_tables).

(** The schema context as the JSON object stored in an entry. *)
Definition schema_value (target_tables : list string)
    (schema_context : gmap string (list string)) : value :=
  VDict (map (fun t => (t, VList (map VStr (default [] (schema_context !! t)))))
             target_tables).

Definition artifact (kind : string) (agent_out : gmap string value) (key : string)
    (compiled_at checks_hash : string) (schema_cols : value) : value :=
  VDict [("type", VStr kind);
         ("artifact", default (VDict []) (agent_out !! key));
         ("compiled_at", VStr (compiled_at +:+ "Z"));
         ("compiled_against",
           VDict [("checks_hash", VStr checks_hash); ("schema_cols", schema_cols)])].

(** The value assigned to [workflows[k]], lines 227-246. *)
Definition entry_of (agent_out : gmap string value) (t1 t2 : nat)
    (checks_hash : string) (schema_cols : value) : value :=
  VList [artifact "plan" agent_out "plan" (isoformat_now t1) checks_hash schema_cols;
         artifact "execution" agent_out "execution" (isoformat_now t2) checks_hash schema_cols].

Definition checks_hash_of (checks_df : DataFrame) : string :=
  _sha256 (if negb (is_empty checks_df) then _stable_csv checks_df else EmptyString).

(** The loop of lines 221-248; the result is the cache and [compiled]. *)
Fixpoint compile_checks (checks_df : DataFrame) (target_tables : list string)
    (schema_context : gmap string (list string))
    (checks_to_compile : list (gmap string value))
    (workflows : gmap string value) (compiled : nat) : io (gmap string value * nat) :=
  match checks_to_compile with
  | [] => mret (workflows, compiled)
  | chk :: rest =>
      let k := key_for chk in
      match use_agent chk schema_context with
      | Raise e => raise e
      | Ok agent_out =>
          t1 ← tick;
          t2 ← tick;
          let e := entry_of agent_out t1 t2 (checks_hash_of checks_df)
                     (schema_value target_tables schema_context) in
          compile_checks checks_df target_tables schema_context rest
            (<[k := e]> workflows) (S compiled)
      end
  end.

(** The values [main] holds once the decisions are taken (line 212). *)
Record decision : Type := {
  checks_changed : bool;
  checks_df : DataFrame;
  target_tables : list string;
  schema_changed : bool;
  current_schema : gmap string (list string);
  workflows : gmap string value;
  checks_to_compile : list (gmap string value)
}.

(** What a completed run leaves: the decisions, the number of checks
    compiled and the cache in memory, from which lines 253-266 print. *)
Record report : Type := {
  decided : decision;
  compiled : nat;
  final_workflows : gmap string value
}.

(** Steps 1-4 of [main], lines 163-212. *)
Definition main_decide : io decision :=
  '(checks_changed, checks_df) ← detect_checks_changes;
  let target_tables := target_tables_of checks_df in
  '(schema_changed, current_schema) ← detect_schema_changes target_tables;
  workflows ← load_workflows;
  mret {| checks_changed := checks_changed; checks_df := checks_df;
          target_tables := target_tables; schema_changed := schema_changed;
          current_schema := current_schema; workflows := workflows;
          checks_to_compile :=
            select_checks checks_changed schema_changed target_tables checks_df |}.

(** Step 5 of [main], lines 215-250. *)
Definition main_compile (d : decision) : io report :=
  match checks_to_compile d with
  | [] => mret {| decided := d; compiled := 0; final_workflows := workflows d |}
  | _ =>
      let schema_context := schema_context_of (target_tables d) (current_schema d) in
      '(wf, n) ← compile_checks (checks_df d) (target_tables d) schema_context
                   (checks_to_compile d) (workflows d) 0;
      save_workflows wf;;
      mret {| decided := d; compiled := n; final_workflows := wf |}
  end.

(** Lines 160-250; the summary that lines 252-266 print is not modelled. *)
Definition main : io report := d ← main_decide; main_compile d.

End Agent.

(** ** Derived notions used in the statements *)

(** The sort key [_stable_csv] gives the row [r] of [df] (line 37), and the
    line it writes for that row (line 39). *)
Definition canonical_key (df : DataFrame) (r : gmap string value) : string :=
  join "|" (map (fun c => str (jsonify (cell r c))) (sorted (columns df))).

Definition canonical_line (df : DataFrame) (r : gmap string value) : string :=
  csv_row (filter (fun c => c <> "_sortkey") (sorted (columns df))) (jsonify <$> r).

(** Two frames that hold the same table up to the order of the columns and
    the order of the rows. *)
Definition same_table (df1 df2 : DataFrame) : Prop :=
  columns df1 ≡ₚ columns df2 /\ rows df1 ≡ₚ rows df2.

(** The set of changed tables in the words of the specification: the tables
    added to or removed from the snapshot, and those whose column list
    differs. *)
Definition spec_changed_tables (prev current : gmap string (list string)) : gset string :=
  filter (fun t => prev !! t <> current !! t) (dom prev ∪ dom current).

(** The scheduling policy in the words of the specification (rules 1-3). *)
Definition spec_schedule (registry_changed : bool) (changed_tables : gset string)
    (all_checks : list (gmap string value)) : list (gmap string value) :=
  if registry_changed then all_checks
  else List.filter (fun row => bool_decide (targets_of row ∩ changed_tables <> ∅)) all_checks.

(** The two file operations [save_workflows] performs, in order, and the
    worlds that exist before, between and after them. *)
Definition save_workflows_steps (wf : gmap string value) : list (io unit) :=
  [open_w WORKFLOW_CACHE; dump_workflows wf].

Fixpoint worlds_through (steps : list (io unit)) (w : world) : list world :=
  match steps with
  | [] => [w]
  | s :: steps' => w :: worlds_through steps' (s w).2
  end.

(** What a reader of the cache obtains in the world [w]. *)
Definition cache_seen (w : world) : outcome (gmap string value) := (load_workflows w).1.

(** The registry snapshot agrees with the registry [df]: read back, it has
    the digest of the canonical text of [df]. *)
Definition registry_settled (sha : string -> string) (df : DataFrame) (w : world) : Prop :=
  checks_json w = Holds df /\
  exists s, checks_last_csv w = Some s /\
            sha (read_text s) = sha (current_csv_of df).

(** The registry snapshot is up to date with the registry [df]: the file
    holds the canonical text of [df] as it was written, or a text that
    agrees with it when read back. *)
Definition registry_recorded (sha : string -> string) (df : DataFrame) (w : world) : Prop :=
  checks_json w = Holds df /\
  exists s, checks_last_csv w = Some s /\
            (s = current_csv_of df \/ sha (read_text s) = sha (current_csv_of df)).

(** The canonical text of [df] holds no carriage return. *)
Definition cr_free (df : DataFrame) : Prop :=
  contains "013" (current_csv_of df) = false.

(** Every character of [s] is an ASCII character. *)
Definition ascii_text (s : string) : Prop :=
  Forall (fun c => (N_of_ascii c < 128)%N) (list_ascii_of_string s).

(** The schema snapshot agrees with what the data files show for [tables]. *)
Definition schema_settled (tables : list string) (cur : gmap string (list string))
    (w : world) : Prop :=
  (observe_columns tables ∅ w).1 = Ok cur /\ schema_cols_cache w = Holds cur.

(** The files of two worlds are the same; only the clock may differ. *)
Definition same_files (w w' : world) : Prop :=
  checks_json w' = checks_json w /\ data_csv w' = data_csv w /\
  checks_last_csv w' = checks_last_csv w /\
  schema_cols_cache w' = schema_cols_cache w /\
  workflow_cache w' = workflow_cache w /\ written w' = written w.

(** The mapping [load_workflows] returns in the world [w]. *)
Definition loaded (w : world) : gmap string value :=
  match workflow_cache w with Holds wf => wf | _ => ∅ end.

(** ** Concrete inputs used in examples *)

Definition mk_check (id name : string) (target_table : value) : gmap string value :=
  {[ "check_id" := VStr id; "check_name" := VStr name; "target_table" := target_table ]}.

Definition rowA : gmap string value := mk_check "A" "a" (VStr "orders").
Definition rowB : gmap string value := mk_check "B" "b" (VStr "users,orders").
Definition rowC : gmap string value := mk_check "C" "c" (VStr "events").

(** The registry of the three checks A, B and C. *)
Definition registry_abc : DataFrame :=
  {| columns := ["check_id"; "check_name"; "target_table"]; rows := [rowA; rowB; rowC] |}.

(** The same registry written by another producer: columns and rows in
    another order. *)
Definition registry_cba : DataFrame :=
  {| columns := ["target_table"; "check_id"; "check_name"]; rows := [rowC; rowA; rowB] |}.

(** Two rows with the same sort key and different lines, in both orders. *)
Definition tie_row1 : gmap string value := {[ "x" := VStr "a|b"; "y" := VStr "c" ]}.
Definition tie_row2 : gmap string value := {[ "x" := VStr "a"; "y" := VStr "b|c" ]}.
Definition tie_frame1 : DataFrame := {| columns := ["x"; "y"]; rows := [tie_row1; tie_row2] |}.
Definition tie_frame2 : DataFrame := {| columns := ["x"; "y"]; rows := [tie_row2; tie_row1] |}.

(** The data directory: three tables with two columns each. *)
Definition table_of (cols : list string) : stored DataFrame :=
  Holds {| columns := cols; rows := [] |}.

Definition data_abc (t : string) : stored DataFrame :=
  if decide (t = "users") then table_of ["id"; "email"]
  else if decide (t = "orders") then table_of ["id"; "total"]
  else if decide (t = "events") then table_of ["id"; "ts"]
  else Missing.

(** A fresh cache directory. *)
Definition world_fresh : world :=
  {| checks_json := Holds registry_abc; data_csv := data_abc;
     checks_last_csv := None; schema_cols_cache := Missing;
     workflow_cache := Missing; written := []; clock := 0 |}.

(** The schema snapshot of an earlier run, when [users] had one column. *)
Definition snapshot_before : gmap string (list string) :=
  {[ "events" := ["id"; "ts"]; "orders" := ["id"; "total"]; "users" := ["id"] ]}.

(** The registry is as at the last run; the table [users] gained a column. *)
Definition world_users_changed : world :=
  {| checks_json := Holds registry_abc; data_csv := data_abc;
     checks_last_csv := Some (current_csv_of registry_abc);
     schema_cols_cache := Holds snapshot_before;
     workflow_cache := Missing; written := []; clock := 0 |}.

(** A stand-in for the digest (injective), a clock, an oracle that always
    answers and one that raises for check B. *)
Definition sha_id (s : string) : string := s.
Definition iso_count (n : nat) : string := "t" +:+ pretty n.
Definition agent_ok (check_row : gmap string value)
    (schema_cols : gmap string (list string)) : outcome (gmap string value) :=
  Ok {[ "plan" := VStr "steps"; "execution" := VStr "trace" ]}.
Definition agent_fails_B (check_row : gmap string value)
    (schema_cols : gmap string (list string)) : outcome (gmap string value) :=
  if decide (key_for check_row = "B::b") then Raise (AgentError "LLM failed")
  else agent_ok check_row schema_cols.

(** A registry whose only check lists a blank target table. *)
Definition registry_blank : DataFrame :=
  {| columns := ["check_id"; "check_name"; "target_table"];
     rows := [mk_check "D" "d" (VList [VStr " "])] |}.

(** A cache holding one entry, and the cache that is to replace it. *)
Definition cache_old : gmap string value := {[ "A::a" := VStr "old" ]}.
Definition cache_new : gmap string value := {[ "A::a" := VStr "new" ]}.
Definition world_cached : world :=
  {| checks_json := Holds registry_abc; data_csv := data_abc;
     checks_last_csv := None; schema_cols_cache := Missing;
     workflow_cache := Holds cache_old; written := []; clock := 0 |}.

(** A registry whose check B has a description of two lines, separated by
    CR LF, and a fresh cache directory with it. *)
Definition rowB_two_lines : gmap string value :=
  <[ "description" := VStr ("first" +:+ String "013" LF +:+ "second") ]> rowB.
Definition registry_cr : DataFrame :=
  {| columns := ["check_id"; "check_name"; "description"; "target_table"];
     rows := [rowB_two_lines] |}.
Definition world_cr : world :=
  {| checks_json := Holds registry_cr; data_csv := data_abc;
     checks_last_csv := None; schema_cols_cache := Missing;
     workflow_cache := Missing; written := []; clock := 0 |}.

(** ** More builtins *)

(** The case mapping of [str.upper] on ASCII text; letters outside ASCII,
    which Python maps as well, are left as they are, so statements about the
    case mapping of a whole text are made for [ascii_text]. *)
Definition upper_char (c : ascii) : ascii :=
  let n := N_of_ascii c in
  if ((97 <=? n) && (n <=? 122))%N then ascii_of_N (n - 32) else c.

(** [s.upper()] *)
Fixpoint upper (s : string) : string :=
  match s with
  | EmptyString => EmptyString
  | String c s' => String (upper_char c) (upper s')
  end.

(** [s.startswith(p)] *)
Fixpoint startswith (p s : string) : bool :=
  match p, s with
  | EmptyString, _ => true
  | String a p', String b s' => bool_decide (a = b) && startswith p' s'
  | String _ _, EmptyString => false
  end.

(** [needle in hay] for strings. *)
Fixpoint str_in (needle hay : string) : bool :=
  startswith needle hay ||
  match hay with
  | EmptyString => false
  | String _ hay' => str_in needle hay'
  end.

(** [s.endswith(p)] and [s[:-n]]. *)
Definition endswith (p s : string) : bool :=
(String.length p <=? String.length s)%nat &&
  bool_decide (substring (String.length s - String.length p) (String.length p) s = p).

Definition drop_last (n : nat) (s : string) : string :=
  substring 0 (String.length s - n) s.

(** The line boundaries of [str.splitlines] in the ASCII range: LF, VT, FF,
    CR, FS, GS and RS; a CR directly followed by LF is one boundary. *)
Definition is_linebreak (c : ascii) : bool :=
  let n := N_of_ascii c in
  ((10 <=? n) && (n <=? 13) || (28 <=? n) && (n <=? 30))%N.

(** [s.splitlines()] *)
Fixpoint splitlines (s : string) : list string :=
  match s with
  | EmptyString => []
  | String c s' =>
      if is_linebreak c then
        EmptyString ::
          match s' with
          | String c2 s'' =>
              if bool_decide (c = "013"%char) && bool_decide (c2 = "010"%char)
              then splitlines s'' else splitlines s'
          | EmptyString => splitlines s'
          end
      else
        match splitlines s' with
        | [] => [String c EmptyString]
        | h :: t => String c h :: t
        end
  end.


(** ** core_agents/execute_agent.py *)

(** Lines 43-48. The argument is [None] or a string. *)
Definition _parse_status (stdout : option string) : string :=
  let up := upper (default EmptyString stdout) in
  if str_in "PASS" up then "PASS"
  else if str_in "FAIL" up then "FAIL"
  else if str_in "SKIPPED" up then "SKIPPED"
  else if str_in "ERROR" up then "ERROR"
  else "UNKNOWN".

(** Lines 51-58. *)
Definition _status_line (stdout : option string) : string :=
  match stdout with
  | None | Some EmptyString => EmptyString
  | Some s =>
      let lines := map strip (List.filter (fun ln => truthy (strip ln)) (splitlines s)) in
      List.last lines EmptyString
  end.

(** ** core_agents/tools/dataframe_tool.py *)

(** The class [[\w+-]] of the pattern of line 14, on ASCII. *)
Definition is_fence_word (c : ascii) : bool :=
  let n := N_of_ascii c in
  ((48 <=? n) && (n <=? 57) || (65 <=? n) && (n <=? 90) || (97 <=? n) && (n <=? 122)
   || (n =? 95) || (n =? 43) || (n =? 45))%N.

Fixpoint skip_fence_word (s : string) : string :=
  match s with
  | String c s' => if is_fence_word c then skip_fence_word s' else s
  | EmptyString => EmptyString
  end.

Definition FENCE : string := "```".

(** [re.sub] of line 14: the pattern is anchored at the start, so it
    removes at most the opening fence, its tag and the line feed. *)
Definition drop_opening_fence (s : string) : string :=
  if startswith FENCE s then
    match skip_fence_word (substring 3 (String.length s - 3) s) with
    | String c r => if bool_decide (c = "010"%char) then r else s
    | EmptyString => s
    end
  else s.

(** Lines 11-17. *)
Definition _strip_fences (code : string) : string :=
  let s := strip code in
  if startswith FENCE s then
    let s := drop_opening_fence s in
    if endswith FENCE s then drop_last 3 s else s
  else s.

(** ** core_agents/plan_agent.py *)

(** The target list of lines 260 and 285:
    [[s.strip() for s in str(check_row.get("target_table", "")).split(",") if s.strip()]]. *)
Definition plan_targets (check_row : gmap string value) : list string :=
  map strip
      (List.filter (fun s => truthy (strip s))
         (split "," (str (default (VStr EmptyString) (check_row !! "target_table"))))).

(** ** core_agents/utils/plan_logging.py *)


(** ** streamlit.py *)

(** Lines 112-117. The cache is the JSON object of the file, its keys in
    file order; the result for no match is the empty list. *)
Definition runs_for_check (workflows : list (string * value)) (check_id : string) : value :=
  match List.find (fun kv => startswith (check_id +:+ "::") kv.1) workflows with
  | Some (k, v) => if truthy k then v else VList []
  | None => VList []
  end.




(** ** Edits of the environment between runs *)

(** The column list [detect_schema_changes] records for the table [t]
    (lines 46-50 and 104): the labels of the CSV, or none without a file. *)
Definition observed_columns (data : string -> stored DataFrame) (t : string) : list string :=
  match data t with
  | Holds df => columns df
  | _ => []
  end.

(** The data directory is replaced by [data]. *)
Definition with_data (data : string -> stored DataFrame) (w : world) : world :=
  {| checks_json := checks_json w; data_csv := data;
     checks_last_csv := checks_last_csv w;
     schema_cols_cache := schema_cols_cache w; workflow_cache := workflow_cache w;
     written := written w; clock := clock w |}.

(** The registry source is replaced by [src]. *)
Definition with_registry (src : stored DataFrame) (w : world) : world :=
  {| checks_json := src; data_csv := data_csv w;
     checks_last_csv := checks_last_csv w;
     schema_cols_cache := schema_cols_cache w; workflow_cache := workflow_cache w;
     written := written w; clock := clock w |}.

(** Two data directories show the same schema: the same files are
    unreadable and every table has the same column list. *)
Definition same_schema (d1 d2 : string -> stored DataFrame) : Prop :=
  forall t, (d1 t = Unreadable <-> d2 t = Unreadable) /\
            observed_columns d1 t = observed_columns d2 t.

(** The data directory [data_abc] after new rows arrived in [users]. *)
Definition data_abc_more_rows (t : string) : stored DataFrame :=
  if decide (t = "users")
  then Holds {| columns := ["id"; "email"];
                rows := [ {[ "id" := VInt 1; "email" := VStr "a@b.c" ]} ] |}
  else data_abc t.

(** The data directory [data_abc] with a [users] file that cannot be parsed. *)
Definition data_abc_broken (t : string) : stored DataFrame :=
  if decide (t = "users") then Unreadable else data_abc t.

(** The registry is as at the last run; the schema snapshot is a file that
    cannot be parsed. *)
Definition world_corrupt_schema : world :=
  {| checks_json := Holds registry_abc; data_csv := data_abc;
     checks_last_csv := Some (current_csv_of registry_abc);
     schema_cols_cache := Unreadable;
     workflow_cache := Missing; written := []; clock := 0 |}.

(** A registry without checks, and a fresh directory holding it. *)
Definition registry_none : DataFrame := {| columns := []; rows := [] |}.
Definition world_no_checks : world :=
  {| checks_json := Holds registry_none; data_csv := data_abc;
     checks_last_csv := None; schema_cols_cache := Missing;
     workflow_cache := Holds cache_old; written := []; clock := 0 |}.

(** The first character, if any, is not white space. *)
Definition head_ok (s : string) : Prop :=
  match s with
  | EmptyString => True
  | String c _ => is_space c = false
  end.

(** ** Facts about the builtins *)

Lemma sorted_Permutation (l1 l2 : list string) :
  l1 ≡ₚ l2 -> sorted l1 = sorted l2.
Proof.
  intros Hp. unfold sorted.
  apply (Sorted_unique String.le).
  - apply Sorted_merge_sort; apply _.
  - apply Sorted_merge_sort; apply _.
  - by rewrite !merge_sort_Permutation.
Qed.

Lemma zip_map_self {A B : Type} (f : A -> B) (l : list A) :
  zip (map f l) l = map (fun x => (f x, x)) l.
Proof. induction l as [|x l IH]; simpl; [done | by rewrite IH]. Qed.

#[local] Instance by_key_total {A : Type} : Total (@by_key A).
Proof. intros a b. unfold by_key. apply (total String.le). Qed.

#[local] Instance by_key_trans {A : Type} : Transitive (@by_key A).
Proof. intros a b c. unfold by_key. apply (transitivity (R := String.le)). Qed.

(** Two key-sorted arrangements of the same rows show the same sequence of
    images under [f], as soon as rows that share a key share their image. *)
Lemma sorted_by_key_images {A B : Type} (f : A -> B) (l1 l2 : list (string * A)) :
  (forall a b, a ∈ l1 -> b ∈ l1 -> a.1 = b.1 -> f a.2 = f b.2) ->
  l1 ≡ₚ l2 ->
  map (fun p => f p.2) (merge_sort by_key l1) = map (fun p => f p.2) (merge_sort by_key l2).
Proof.
  intros Htie Hp.
  set (g := fun p : string * A => (p.1, f p.2)).
  assert (map g (merge_sort by_key l1) = map g (merge_sort by_key l2)) as Hg.
  { apply (Sorted_unique_strong (@by_key B)).
    - intros x1 x2 [a [-> Ha]]%list_elem_of_fmap [b [-> Hb]]%list_elem_of_fmap H1 H2.
      unfold g, by_key in *; simpl in *.
      assert (a.1 = b.1) as Hk by (by apply (anti_symm String.le)).
      rewrite Hk. f_equal. apply Htie; [| |done].
      + by rewrite <- (merge_sort_Permutation by_key l1).
      + by rewrite Hp, <- (merge_sort_Permutation by_key l2).
    - eapply Sorted_fmap; [|apply (Sorted_merge_sort by_key); apply _].
      by intros ??.
    - eapply Sorted_fmap; [|apply (Sorted_merge_sort by_key); apply _].
      by intros ??.
    - apply fmap_Permutation. by rewrite !merge_sort_Permutation. }
  apply (f_equal (map snd)) in Hg.
  rewrite !map_map in Hg. exact Hg.
Qed.

Lemma cell_jsonify (r : gmap string value) (c : string) :
  cell (jsonify <$> r) c = jsonify (cell r c).
Proof. unfold cell. rewrite lookup_fmap. by destruct (r !! c). Qed.

(** [_stable_csv] unfolded: the header, then the lines of the rows in the
    order of their keys. *)
Lemma _stable_csv_unfold (df : DataFrame) :
  _stable_csv df =
    csv_record (filter (fun c => c <> "_sortkey") (sorted (columns df)))
    +:+ join EmptyString
          (map (fun p => csv_row (filter (fun c => c <> "_sortkey") (sorted (columns df))) p.2)
               (merge_sort by_key
                  (map (fun r => (canonical_key df r, jsonify <$> r)) (rows df)))).
Proof.
  unfold _stable_csv, to_csv, drop_column, sort_values, sortkeys, astype_str,
    apply_cells, select; simpl.
  f_equal. f_equal.
  rewrite (map_map _ (join "|")), zip_map_self, !map_map. f_equal. f_equal.
  apply map_ext. intros r. f_equal. unfold canonical_key. f_equal.
  apply map_ext. intros c. by rewrite cell_jsonify.
Qed.

(** ** Canonicalizer *)

(** X22. Two frames holding the same table up to the order of columns and
    rows have the same [_stable_csv] text, hence the same digest, as soon
    as rows of the table that share a sort key are written as the same
    line; rows with distinct sort keys are such. *)
Theorem stable_csv_same_table (sha : string -> string) (df1 df2 : DataFrame) :
  same_table df1 df2 ->
  (forall r r', r ∈ rows df1 -> r' ∈ rows df1 ->
     canonical_key df1 r = canonical_key df1 r' ->
     canonical_line df1 r = canonical_line df1 r') ->
  _stable_csv df1 = _stable_csv df2 /\
  _sha256 sha (_stable_csv df1) = _sha256 sha (_stable_csv df2).
Proof.
  intros [Hcols Hrows] Htie.
  assert (_stable_csv df1 = _stable_csv df2) as E; [|by rewrite E].
  rewrite !_stable_csv_unfold.
  assert (canonical_key df2 = canonical_key df1) as ->.
  { unfold canonical_key. by rewrite (sorted_Permutation _ _ Hcols). }
  rewrite <- (sorted_Permutation _ _ Hcols).
  f_equal. f_equal.
  apply (sorted_by_key_images
           (csv_row (filter (fun c => c <> "_sortkey") (sorted (columns df1))))).
  - intros a b [r [-> Hr]]%list_elem_of_fmap [r' [-> Hr']]%list_elem_of_fmap Hk.
    simpl in *. by apply Htie.
  - by apply fmap_Permutation.
Qed.

Lemma stable_csv_same_table_witness :
  same_table registry_abc registry_cba /\
  _stable_csv registry_abc = _stable_csv registry_cba.
Proof.
  assert (same_table registry_abc registry_cba) as Hsame.
  { split; simpl.
    - etrans; [apply perm_skip, perm_swap | apply perm_swap].
    - etrans; [apply perm_skip, perm_swap | apply perm_swap]. }
  split; [exact Hsame|].
  apply (stable_csv_same_table (fun s => s) registry_abc registry_cba Hsame).
  intros r r' Hr Hr' Hk.
  simpl in Hr, Hr'.
  repeat match goal with
         | H : _ ∈ _ :: _ |- _ => apply elem_of_cons in H as [->|H]
         | H : _ ∈ [] |- _ => by apply elem_of_nil in H
         end;
    first [reflexivity | vm_compute in Hk; discriminate Hk].
Defined.

(** C4 (the code departs from it). The rows are sorted on the [|]-join of
    their cells, which does not determine the row. The two frames below
    hold the same two rows in opposite orders; both rows have the sort key
    [a|b|c], so sorting leaves each frame in its own order: the texts
    differ, and so do their digests under every digest that tells the two
    texts apart. *)
Theorem stable_csv_order_dependent :
  same_table tie_frame1 tie_frame2 /\
  canonical_key tie_frame1 tie_row1 = "a|b|c" /\
  canonical_key tie_frame1 tie_row2 = "a|b|c" /\
  _stable_csv tie_frame1 = "x,y" +:+ LF +:+ "a|b,c" +:+ LF +:+ "a,b|c" +:+ LF /\
  _stable_csv tie_frame2 = "x,y" +:+ LF +:+ "a,b|c" +:+ LF +:+ "a|b,c" +:+ LF /\
  _stable_csv tie_frame1 <> _stable_csv tie_frame2 /\
  _sha256 sha_id (_stable_csv tie_frame1) <> _sha256 sha_id (_stable_csv tie_frame2).
Proof.
  split; [split; simpl; [done | apply perm_swap] |].
  do 4 (split; [vm_compute; reflexivity |]).
  split; vm_compute; discriminate.
Qed.

(** ** The detectors and the cache *)

Ltac io_unfold :=
  unfold mbind, io_bind, mret, io_ret, gets, modify, raise, read_from,
    try_except, open_w, write_checks_last, dump_schema_cols, dump_workflows,
    tick, present in *.

(** Reading the data files leaves the world as it is. *)
Lemma observe_columns_world (tables : list string) (current : gmap string (list string))
    (w : world) :
  (observe_columns tables current w).2 = w.
Proof.
  revert current. induction tables as [|t tables IH]; intros current; [done|].
  simpl. unfold load_csv. io_unfold.
  destruct (data_csv w t) eqn:E; simpl; rewrite ?E; simpl; auto.
Qed.

(** What is read depends on the data files only. *)
Lemma observe_columns_data (tables : list string) (current : gmap string (list string))
    (w w' : world) :
  data_csv w = data_csv w' ->
  (observe_columns tables current w).1 = (observe_columns tables current w').1.
Proof.
  intros Hd. revert current.
  induction tables as [|t tables IH]; intros current; [done|].
  simpl. unfold load_csv. io_unfold. rewrite <- Hd.
  destruct (data_csv w t) eqn:E; simpl; rewrite <- ?Hd, ?E; simpl; auto.
Qed.

Lemma observe_columns_data_Ok (tables : list string) (current c : gmap string (list string))
    (w w' : world) :
  data_csv w = data_csv w' ->
  observe_columns tables current w = (Ok c, w) ->
  (observe_columns tables current w').1 = Ok c.
Proof.
  intros Hd Ho. rewrite <- (observe_columns_data tables current w w' Hd).
  by rewrite Ho.
Qed.

Section Facts.

Context (sha : string -> string).

(** Text without a carriage return is read back as written. *)
Lemma universal_newlines_cr_free (s : string) :
  contains "013" s = false -> universal_newlines s = s.
Proof.
  induction s as [|c s IH]; [done|]. simpl. intros Hc.
  apply orb_false_iff in Hc as [Hc1 Hc2].
  apply bool_decide_eq_false in Hc1.
  rewrite bool_decide_eq_false_2 by (intros ->; by apply Hc1).
  by rewrite IH.
Qed.

(** A snapshot that is up to date is settled once the canonical text has no
    carriage return. *)
Lemma registry_recorded_settled (df : DataFrame) (w : world) :
  cr_free df -> registry_recorded sha df w -> registry_settled sha df w.
Proof.
  intros Hcr [Hj (s & Hs & Hh)]. split; [done|]. exists s. split; [done|].
  destruct Hh as [->|Hh]; [|done].
  unfold read_text. by rewrite universal_newlines_cr_free.
Qed.

Lemma detect_checks_changes_Ok (w w' : world) (changed : bool) (df : DataFrame) :
  detect_checks_changes sha w = (Ok (changed, df), w') ->
  registry_recorded sha df w' /\
  data_csv w' = data_csv w /\
  schema_cols_cache w' = schema_cols_cache w /\
  workflow_cache w' = workflow_cache w /\
  clock w' = clock w /\
  (checks_last_csv w = None -> changed = true) /\
  (changed = true ->
     checks_last_csv w' = Some (current_csv_of df) /\
     written w' = CHECKS_LAST_CSV :: written w) /\
  (changed = false -> w' = w).
Proof.
  unfold detect_checks_changes, registry_recorded, _sha256. io_unfold.
  destruct w as [cj dc cl sc wc wr ck]; simpl.
  destruct cj as [| |df0]; simpl; try discriminate.
  destruct cl as [last|]; simpl.
  - destruct (bool_decide _) eqn:Hb; simpl; intros [= <- <- <-]; simpl;
      repeat split; eauto; try discriminate.
    apply bool_decide_eq_false in Hb. apply dec_stable in Hb.
    eexists; split; [done|]. by right.
  - intros [= <- <- <-]; simpl; repeat split; eauto; discriminate.
Qed.

Lemma detect_checks_changes_settled (w : world) (df : DataFrame) :
  registry_settled sha df w ->
  detect_checks_changes sha w = (Ok (false, df), w).
Proof.
  intros [Hj [s [Hs Hh]]].
  unfold detect_checks_changes, _sha256. io_unfold.
  rewrite Hj; simpl. rewrite Hj, Hs; simpl.
  rewrite bool_decide_eq_false_2; [done|]. intros Hne. apply Hne. by symmetry.
Qed.

Lemma detect_schema_changes_Ok (tables : list string) (w w' : world) (changed : bool)
    (cur : gmap string (list string)) :
  detect_schema_changes tables w = (Ok (changed, cur), w') ->
  schema_settled tables cur w' /\
  checks_json w' = checks_json w /\
  data_csv w' = data_csv w /\
  checks_last_csv w' = checks_last_csv w /\
  workflow_cache w' = workflow_cache w /\
  clock w' = clock w /\
  (schema_cols_cache w = Missing -> changed = true) /\
  (changed = true -> written w' = SCHEMA_COLS_CACHE :: written w) /\
  (changed = false -> w' = w).
Proof.
  unfold detect_schema_changes, schema_settled.
  unfold mbind at 1. unfold io_bind at 1.
  pose proof (observe_columns_world tables ∅ w) as Hw.
  destruct (observe_columns tables ∅ w) as [[c|e] w0] eqn:Eo; simpl in Hw; subst w0;
    [|discriminate].
  io_unfold.
  destruct w as [cj dc cl sc wc wr ck]; simpl in *.
  destruct sc as [| |prev]; simpl; try discriminate.
  - intros [= <- <- <-]; simpl.
    split; [split; [|done]|repeat split; eauto; discriminate].
    eapply observe_columns_data_Ok; [|exact Eo]. done.
  - destruct (bool_decide _) eqn:Hb; simpl; intros [= <- <- <-]; simpl.
    + split; [split; [|done]|repeat split; eauto; discriminate].
      eapply observe_columns_data_Ok; [|exact Eo]. done.
    + apply bool_decide_eq_false in Hb. apply dec_stable in Hb. subst prev.
      rewrite Eo. repeat split; eauto; discriminate.
Qed.

Lemma detect_schema_changes_settled (tables : list string) (w : world)
    (cur : gmap string (list string)) :
  schema_settled tables cur w ->
  detect_schema_changes tables w = (Ok (false, cur), w).
Proof.
  intros [Ho Hc]. unfold detect_schema_changes.
  unfold mbind at 1. unfold io_bind at 1.
  pose proof (observe_columns_world tables ∅ w) as Hw.
  destruct (observe_columns tables ∅ w) as [o w0]; simpl in *; subst w0 o.
  io_unfold. rewrite Hc; simpl. rewrite Hc; simpl.
  by rewrite bool_decide_eq_false_2 by (intros Hne; by apply Hne).
Qed.

(** Loading the cache returns, changes nothing, and yields the stored
    mapping or the empty one. *)
Lemma load_workflows_spec (w : world) : load_workflows w = (Ok (loaded w), w).
Proof.
  unfold load_workflows, loaded. io_unfold.
  destruct (workflow_cache w) eqn:E; simpl; rewrite ?E; done.
Qed.

(** *** The decisions of [main] *)

Lemma main_decide_Ok (w w1 : world) (d : decision) :
  main_decide sha w = (Ok d, w1) ->
  exists w0,
    detect_checks_changes sha w = (Ok (checks_changed d, checks_df d), w0) /\
    detect_schema_changes (target_tables d) w0
      = (Ok (schema_changed d, current_schema d), w1) /\
    target_tables d = target_tables_of (checks_df d) /\
    workflows d = loaded w1 /\
    checks_to_compile d =
      select_checks (checks_changed d) (schema_changed d) (target_tables d) (checks_df d).
Proof.
  unfold main_decide.
  unfold mbind at 1. unfold io_bind at 1.
  destruct (detect_checks_changes sha w) as [[[c df]|e] w0] eqn:E1; [|discriminate].
  unfold mbind at 1. unfold io_bind at 1.
  destruct (detect_schema_changes (target_tables_of df) w0) as [[[c2 cur]|e] w0']
    eqn:E2; [|discriminate].
  unfold mbind, io_bind. rewrite load_workflows_spec.
  unfold mret, io_ret. intros [= <- <-]; simpl.
  exists w0. rewrite E2. repeat split; reflexivity.
Qed.

(** Once both snapshots agree with the sources, the decisions are: nothing
    changed, nothing to compile, and no file is touched. *)
Lemma main_decide_settled (w : world) (df : DataFrame) (cur : gmap string (list string)) :
  registry_settled sha df w ->
  schema_settled (target_tables_of df) cur w ->
  main_decide sha w =
    (Ok {| checks_changed := false; checks_df := df;
           target_tables := target_tables_of df; schema_changed := false;
           current_schema := cur; workflows := loaded w;
           checks_to_compile := [] |}, w).
Proof.
  intros Hr Hs. unfold main_decide.
  unfold mbind at 1. unfold io_bind at 1.
  rewrite (detect_checks_changes_settled _ _ Hr).
  unfold mbind at 1. unfold io_bind at 1.
  rewrite (detect_schema_changes_settled _ _ _ Hs).
  unfold mbind, io_bind. rewrite load_workflows_spec. done.
Qed.

(** After the decisions both snapshots are up to date with the sources. *)
Lemma main_decide_settles (w w1 : world) (d : decision) :
  main_decide sha w = (Ok d, w1) ->
  registry_recorded sha (checks_df d) w1 /\
  schema_settled (target_tables_of (checks_df d)) (current_schema d) w1 /\
  workflow_cache w1 = workflow_cache w.
Proof.
  intros (w0 & Hc & Hs & Ht & _)%main_decide_Ok.
  apply detect_checks_changes_Ok in Hc as ([Hj (s & Hl & Hh)] & _ & _ & Hwc & _).
  apply detect_schema_changes_Ok in Hs as (Hset & Hj' & _ & Hl' & Hwc' & _).
  rewrite <- Ht. split; [|split; [done | congruence]].
  split; [congruence|]. exists s. split; [congruence | done].
Qed.

Lemma settled_same_snapshots (w w' : world) (df : DataFrame) (tables : list string)
    (cur : gmap string (list string)) :
  checks_json w' = checks_json w -> data_csv w' = data_csv w ->
  checks_last_csv w' = checks_last_csv w ->
  schema_cols_cache w' = schema_cols_cache w ->
  registry_settled sha df w -> schema_settled tables cur w ->
  registry_settled sha df w' /\ schema_settled tables cur w'.
Proof.
  intros Hj Hd Hl Hs [Hr (s & Hs1 & Hs2)] [Ho Hc].
  split; [split; [congruence | exists s; split; [congruence | done]]|].
  split; [|congruence].
  rewrite <- Ho. apply observe_columns_data. done.
Qed.

(** With readable data files the columns of all tables are obtained. *)
Lemma observe_columns_readable (tables : list string) (w : world) :
  (forall t, data_csv w t <> Unreadable) ->
  forall current, exists cur, observe_columns tables current w = (Ok cur, w).
Proof.
  intros Hr. induction tables as [|t tables IH]; intros current; simpl.
  - by exists current.
  - unfold load_csv. io_unfold. specialize (Hr t).
    destruct (data_csv w t) eqn:E; simpl; rewrite ?E; simpl; [apply IH|done|apply IH].
Qed.

End Facts.

(** ** Compilation and the run as a whole *)
Section Run.

Context (sha : string -> string).
Context (agent : gmap string value -> gmap string (list string) -> outcome (gmap string value)).
Context (iso : nat -> string).

#[local] Abbreviation compile := (compile_checks sha agent iso).

Lemma tick_same_files (w : world) : same_files w (tick w).2.
Proof. by repeat split. Qed.

Lemma same_files_trans (w1 w2 w3 : world) :
  same_files w1 w2 -> same_files w2 w3 -> same_files w1 w3.
Proof. unfold same_files. intros ? ?. intuition congruence. Qed.

Lemma same_files_refl (w : world) : same_files w w.
Proof. by repeat split. Qed.

(** The loop writes no file, whether it completes or raises. *)
Lemma compile_checks_files df tt ctx cs :
  forall wf n w res w',
    compile df tt ctx cs wf n w = (res, w') -> same_files w w'.
Proof.
  induction cs as [|chk cs IH]; intros wf n w res w'; simpl.
  - intros [= <- <-]. apply same_files_refl.
  - destruct (agent chk ctx) as [out|e].
    + io_unfold. simpl. intros H. apply IH in H.
      eapply same_files_trans; [|exact H]. by repeat split.
    + intros [= <- <-]. apply same_files_refl.
Qed.


(** When the loop completes, every scheduled check compiled, the count
    grew by their number, keys of other checks are as before, and the key
    of every scheduled check holds an entry built in this loop. *)
Lemma compile_checks_Ok df tt ctx cs :
  forall wf n w wf' n' w',
    compile df tt ctx cs wf n w = (Ok (wf', n'), w') ->
    n' = n + length cs /\
    (forall chk, chk ∈ cs -> exists out, agent chk ctx = Ok out) /\
    (forall k, k ∉ map key_for cs -> wf' !! k = wf !! k) /\
    (forall chk, chk ∈ cs ->
       exists chk' out t1 t2,
         chk' ∈ cs /\ key_for chk' = key_for chk /\ agent chk' ctx = Ok out /\
         wf' !! key_for chk
           = Some (entry_of iso out t1 t2 (checks_hash_of sha df) (schema_value tt ctx))).
Proof.
  induction cs as [|chk cs IH]; intros wf n w wf' n' w'; simpl.
  - intros [= <- <- <-]. split; [lia|]. split; [|split; [done|]];
      intros chk Hin; by apply elem_of_nil in Hin.
  - destruct (agent chk ctx) as [out|e] eqn:Ea; [|discriminate].
    io_unfold. simpl. intros H. apply IH in H as (Hn & Hall & Hother & Hfresh).
    split; [lia|]. split; [|split].
    + intros chk' [->|Hin]%elem_of_cons; eauto.
    + intros k Hk. rewrite Hother.
      * apply lookup_insert_ne. intros <-. apply Hk. by left.
      * intros Hin. apply Hk. by right.
    + assert (forall c, c ∈ cs ->
                exists chk' out t1 t2, chk' ∈ chk :: cs /\ key_for chk' = key_for c /\
                  agent chk' ctx = Ok out /\
                  wf' !! key_for c = Some (entry_of iso out t1 t2 (checks_hash_of sha df)
                                             (schema_value tt ctx))) as Hrest.
      { intros c Hc. destruct (Hfresh c Hc) as (chk' & out' & t1 & t2 & Hin & Hk & Ho & Hl).
        exists chk', out', t1, t2. split; [by right | done]. }
      intros chk' [->|Hin]%elem_of_cons; [|by apply Hrest].
      destruct (decide (key_for chk ∈ map key_for cs)) as [Hk|Hk].
      * apply list_elem_of_fmap in Hk as (c & Hkc & Hc).
        destruct (Hrest c Hc) as (chk' & out' & t1 & t2 & Hin & Hk' & Ho & Hl).
        exists chk', out', t1, t2. rewrite Hkc. split; [done|]. split; [done|]. done.
      * exists chk, out, (clock w), (S (clock w)).
        split; [by left|]. split; [done|]. split; [done|].
        rewrite (Hother _ Hk). apply lookup_insert_eq.
Qed.

(** *** The compilation step of [main] *)

Lemma main_compile_Raise (d : decision) (w w' : world) (e : exn) :
  main_compile sha agent iso d w = (Raise e, w') -> same_files w w'.
Proof.
  unfold main_compile. destruct (checks_to_compile d) as [|chk cs] eqn:Ec.
  - discriminate.
  - unfold mbind at 1. unfold io_bind at 1.
    destruct (compile _ _ _ _ _ _ _) as [[[wf n]|e'] w0] eqn:E.
    + unfold save_workflows. io_unfold. simpl. discriminate.
    + intros [= <- <-]. by eapply compile_checks_files.
Qed.

Lemma main_compile_Ok (d : decision) (w w' : world) (r : report) :
  main_compile sha agent iso d w = (Ok r, w') ->
  decided r = d /\
  checks_json w' = checks_json w /\ data_csv w' = data_csv w /\
  checks_last_csv w' = checks_last_csv w /\
  schema_cols_cache w' = schema_cols_cache w /\
  (checks_to_compile d = [] ->
     w' = w /\ compiled r = 0 /\ final_workflows r = workflows d) /\
  (checks_to_compile d <> [] ->
     workflow_cache w' = Holds (final_workflows r) /\
     written w' = WORKFLOW_CACHE :: written w /\
     exists w0,
       compile (checks_df d) (target_tables d)
         (schema_context_of (target_tables d) (current_schema d))
         (checks_to_compile d) (workflows d) 0 w
       = (Ok (final_workflows r, compiled r), w0)).
Proof.
  unfold main_compile. destruct (checks_to_compile d) as [|chk cs] eqn:Ec.
  - intros [= <- <-]. simpl. repeat split; done.
  - unfold mbind at 1. unfold io_bind at 1.
    destruct (compile _ _ _ _ _ _ _) as [[[wf n]|e'] w0] eqn:E; [|discriminate].
    apply compile_checks_files in E as Hf.
    destruct Hf as (Hj & Hd & Hl & Hs & Hw & Hwr).
    unfold save_workflows. io_unfold. simpl. intros [= <- <-]. simpl.
    do 5 (split; [done|]). split; [done|].
    intros _. split; [done|]. split; [by rewrite Hwr|].
    exists w0. reflexivity.
Qed.

End Run.

(** ** The claims about the detectors, the scheduler and the cache *)

(** C10. Loading the workflow cache never raises and changes nothing: with
    no file or an unparseable file the result is the empty mapping, with a
    well-formed file it is the mapping stored. *)
Theorem load_workflows_never_raises (w : world) :
  exists wf, load_workflows w = (Ok wf, w) /\
    (workflow_cache w = Missing -> wf = ∅) /\
    (workflow_cache w = Unreadable -> wf = ∅) /\
    (forall m, workflow_cache w = Holds m -> wf = m).
Proof.
  exists (loaded w). split; [apply load_workflows_spec|].
  unfold loaded. repeat split.
  - by intros ->.
  - by intros ->.
  - by intros m ->.
Qed.

Lemma detect_checks_changes_cases (sha : string -> string) (w : world) :
  match checks_json w with
  | Missing => detect_checks_changes sha w = (Raise FileNotFoundError, w)
  | Unreadable => detect_checks_changes sha w = (Raise JSONDecodeError, w)
  | Holds df => exists changed w', detect_checks_changes sha w = (Ok (changed, df), w')
  end.
Proof.
  unfold detect_checks_changes. io_unfold.
  destruct (checks_json w) as [| |df] eqn:Ej; simpl; rewrite ?Ej; simpl; [done..|].
  destruct (checks_last_csv w); simpl; [destruct (bool_decide _); simpl|]; eauto.
Qed.

Lemma main_raises_with_detector (sha : string -> string)
    (agent : gmap string value -> gmap string (list string) -> outcome (gmap string value))
    (iso : nat -> string) (w w' : world) (e : exn) :
  detect_checks_changes sha w = (Raise e, w') ->
  main_decide sha w = (Raise e, w') /\ main sha agent iso w = (Raise e, w').
Proof.
  intros H. unfold main, main_decide.
  unfold mbind, io_bind. by rewrite H.
Qed.

(** C7. The registry detector raises exactly when the registry source is
    absent or cannot be loaded; then [main] raises the same error with the
    world untouched, so no schedule exists and no snapshot is written.
    Otherwise the detector returns the change flag and the registry. *)
Theorem detect_checks_changes_raises_iff (sha : string -> string)
    (agent : gmap string value -> gmap string (list string) -> outcome (gmap string value))
    (iso : nat -> string) (w : world) :
  ((exists e, (detect_checks_changes sha w).1 = Raise e) <->
     (checks_json w = Missing \/ checks_json w = Unreadable)) /\
  (forall e, (detect_checks_changes sha w).1 = Raise e ->
     detect_checks_changes sha w = (Raise e, w) /\
     main_decide sha w = (Raise e, w) /\
     main sha agent iso w = (Raise e, w)) /\
  (forall df, checks_json w = Holds df ->
     exists changed w', detect_checks_changes sha w = (Ok (changed, df), w')).
Proof.
  pose proof (detect_checks_changes_cases sha w) as Hc.
  destruct (checks_json w) as [| |df] eqn:Ej.
  - split; [split; [by left | exists FileNotFoundError; by rewrite Hc]|].
    split; [|discriminate].
    intros e He. rewrite Hc in He. simpl in He. injection He as <-.
    split; [done|]. by apply main_raises_with_detector.
  - split; [split; [by right | exists JSONDecodeError; by rewrite Hc]|].
    split; [|discriminate].
    intros e He. rewrite Hc in He. simpl in He. injection He as <-.
    split; [done|]. by apply main_raises_with_detector.
  - destruct Hc as (changed & w' & Hc).
    split; [split|split].
    + intros [e He]. rewrite Hc in He. discriminate.
    + intros [[=]|[=]].
    + intros e He. rewrite Hc in He. discriminate.
    + intros df' [= <-]. eauto.
Qed.

Section Claims.

Context (sha : string -> string).
Context (agent : gmap string value -> gmap string (list string) -> outcome (gmap string value)).
Context (iso : nat -> string).

Lemma main_Ok (w w2 : world) (r : report) :
  main sha agent iso w = (Ok r, w2) ->
  exists d w1, main_decide sha w = (Ok d, w1) /\
               main_compile sha agent iso d w1 = (Ok r, w2).
Proof.
  unfold main. unfold mbind, io_bind.
  destruct (main_decide sha w) as [[d|e] w1]; [eauto | discriminate].
Qed.

Lemma main_after_decide (w w1 : world) (d : decision) :
  main_decide sha w = (Ok d, w1) ->
  main sha agent iso w = main_compile sha agent iso d w1.
Proof. intros H. unfold main. unfold mbind, io_bind. by rewrite H. Qed.

(** A run in a world whose snapshots agree with the sources reports no
    change, schedules nothing and leaves the world as it is. *)
Lemma main_settled (w : world) (df : DataFrame) (cur : gmap string (list string)) :
  registry_settled sha df w ->
  schema_settled (target_tables_of df) cur w ->
  exists r, main sha agent iso w = (Ok r, w) /\
    checks_changed (decided r) = false /\ schema_changed (decided r) = false /\
    checks_to_compile (decided r) = [] /\ compiled r = 0 /\
    final_workflows r = loaded w.
Proof.
  intros Hr Hs.
  rewrite (main_after_decide _ _ _ (main_decide_settled sha w df cur Hr Hs)).
  unfold main_compile; simpl. eexists; split; [reflexivity|]. done.
Qed.

End Claims.

(** ** The scheduler *)

Lemma filter_all {A : Type} (l : list A) : List.filter (fun _ => true) l = l.
Proof. induction l as [|x l IH]; simpl; [done | by rewrite IH]. Qed.

Lemma select_checks_registry_changed (schema_changed : bool) (tables : list string)
    (df : DataFrame) :
  select_checks true schema_changed tables df = iterrows df.
Proof. unfold select_checks. simpl. apply filter_all. Qed.

(** ** Reading the registry snapshot back *)

Section Reread.

Context (sha : string -> string).

(** A snapshot that reads back with another digest than the canonical text
    is reported as a change. *)
Lemma detect_checks_changes_differs (w : world) (df : DataFrame) (s : string) :
  checks_json w = Holds df -> checks_last_csv w = Some s ->
  sha (read_text s) <> sha (current_csv_of df) ->
  exists w', detect_checks_changes sha w = (Ok (true, df), w').
Proof.
  intros Hj Hs Hne. unfold detect_checks_changes, _sha256. io_unfold.
  rewrite Hj; simpl. rewrite Hj, Hs; simpl.
  rewrite bool_decide_eq_true_2 by (intros Heq; apply Hne; by symmetry).
  simpl. eauto.
Qed.

(** When the snapshot holds the canonical text as written and that text
    reads back with another digest, the decisions of a run are: the registry
    changed, every check is to be compiled, and the snapshot is written
    again. *)
Lemma main_decide_reread (w : world) (df : DataFrame) (cur : gmap string (list string)) :
  checks_json w = Holds df ->
  checks_last_csv w = Some (current_csv_of df) ->
  sha (read_text (current_csv_of df)) <> sha (current_csv_of df) ->
  schema_settled (target_tables_of df) cur w ->
  exists w',
    detect_checks_changes sha w = (Ok (true, df), w') /\
    main_decide sha w =
      (Ok {| checks_changed := true; checks_df := df;
             target_tables := target_tables_of df; schema_changed := false;
             current_schema := cur; workflows := loaded w;
             checks_to_compile := iterrows df |}, w') /\
    checks_last_csv w' = checks_last_csv w /\
    written w' = CHECKS_LAST_CSV :: written w.
Proof.
  intros Hj Hl Hne [Ho Hc].
  destruct (detect_checks_changes_differs w df _ Hj Hl Hne) as [w' Hd].
  pose proof (detect_checks_changes_Ok sha _ _ _ _ Hd)
    as (_ & Hdata & Hsc & Hwc & _ & _ & Hwr & _).
  destruct (Hwr eq_refl) as [Hl' Hw'].
  exists w'. split; [done|]. split; [|split; [congruence | done]].
  assert (schema_settled (target_tables_of df) cur w') as Hs'.
  { split; [|congruence]. rewrite <- Ho. by apply observe_columns_data. }
  unfold main_decide. unfold mbind at 1. unfold io_bind at 1. rewrite Hd.
  unfold mbind at 1. unfold io_bind at 1.
  rewrite (detect_schema_changes_settled _ _ _ Hs').
  unfold mbind, io_bind. rewrite load_workflows_spec.
  unfold mret, io_ret. rewrite select_checks_registry_changed.
  unfold loaded. by rewrite Hwc.
Qed.

End Reread.

(** C3 (the code departs from it). The registry snapshot is read back in
    text mode, which turns CR LF and CR into LF. So when a completed run has
    written the snapshot and the canonical text of the registry reads back
    with another digest (it holds a carriage return), the next registry
    detection, with nothing edited, returns [changed = true] and opens the
    snapshot for writing again, and the next run decides that the registry
    changed and schedules every check. *)
Theorem second_run_rewrites_snapshot (sha : string -> string)
    (agent : gmap string value -> gmap string (list string) -> outcome (gmap string value))
    (iso : nat -> string) (w w1 : world) (r : report) :
  main sha agent iso w = (Ok r, w1) ->
  checks_changed (decided r) = true ->
  sha (read_text (current_csv_of (checks_df (decided r))))
    <> sha (current_csv_of (checks_df (decided r))) ->
  exists w2,
    detect_checks_changes sha w1 = (Ok (true, checks_df (decided r)), w2) /\
    written w2 = CHECKS_LAST_CSV :: written w1 /\
    exists d', main_decide sha w1 = (Ok d', w2) /\
      checks_changed d' = true /\
      checks_to_compile d' = iterrows (checks_df (decided r)).
Proof.
  intros (d & w0 & Hd & Hc)%main_Ok Hch Hne.
  pose proof (main_decide_settles sha _ _ _ Hd) as ([Hj0 _] & [Ho Hs] & _).
  pose proof (main_decide_Ok sha _ _ _ Hd) as (w' & Hdc & Hds & _).
  apply main_compile_Ok in Hc as (Hr & Hj & Hdata & Hl & Hsc & _).
  rewrite Hr in *.
  apply detect_checks_changes_Ok in Hdc as (_ & _ & _ & _ & _ & _ & Hwr & _).
  apply detect_schema_changes_Ok in Hds as (_ & _ & _ & Hl' & _).
  destruct (Hwr Hch) as [Hcur _].
  destruct (main_decide_reread sha w1 (checks_df d) (current_schema d))
    as (w2 & Hdet & Hmd & _ & Hw); [congruence | congruence | done | |].
  { split; [|congruence]. rewrite <- Ho. by apply observe_columns_data. }
  exists w2. split; [done|]. split; [done|]. eexists. split; [exact Hmd|]. done.
Qed.

Lemma second_run_rewrites_snapshot_witness :
  exists r w1,
    main sha_id agent_ok iso_count world_cr = (Ok r, w1) /\
    exists w2 d',
      detect_checks_changes sha_id w1 = (Ok (true, registry_cr), w2) /\
      written w2 = CHECKS_LAST_CSV :: written w1 /\
      main_decide sha_id w1 = (Ok d', w2) /\
      checks_to_compile d' = [rowB_two_lines] /\
      exists r' w3,
        main sha_id agent_ok iso_count w1 = (Ok r', w3) /\ compiled r' = 1 /\
        written w3 = WORKFLOW_CACHE :: CHECKS_LAST_CSV :: written w1.
Proof.
  eexists _, _. split; [vm_compute; reflexivity|].
  edestruct (second_run_rewrites_snapshot sha_id agent_ok iso_count world_cr)
    as (w2 & Hdet & Hw & d' & Hmd & _ & Hs);
    [vm_compute; reflexivity | vm_compute; reflexivity | vm_compute; discriminate |].
  exists w2, d'. split; [exact Hdet|]. split; [exact Hw|]. split; [exact Hmd|].
  split; [exact Hs|].
  eexists _, _. split; [vm_compute; reflexivity|]. split; reflexivity.
Defined.

(** C5 (the code departs from it). The registry snapshot is written by the
    detector, before any compilation, and a run whose compilation raises
    leaves it written and the workflow cache file as it was. But the
    snapshot is read back in text mode: when the canonical text of the
    registry reads back with another digest (it holds a carriage return),
    the run after the aborted one, with nothing edited, decides again that
    the registry changed and schedules every check. *)
Theorem aborted_run_is_retried (sha : string -> string)
    (agent : gmap string value -> gmap string (list string) -> outcome (gmap string value))
    (iso : nat -> string) (w w1 w2 : world) (d : decision) (e : exn) :
  main_decide sha w = (Ok d, w1) ->
  checks_changed d = true ->
  main_compile sha agent iso d w1 = (Raise e, w2) ->
  sha (read_text (current_csv_of (checks_df d))) <> sha (current_csv_of (checks_df d)) ->
  checks_last_csv w1 = Some (current_csv_of (checks_df d)) /\
  main sha agent iso w = (Raise e, w2) /\
  checks_last_csv w2 = checks_last_csv w1 /\
  workflow_cache w2 = workflow_cache w /\
  exists d' w3, main_decide sha w2 = (Ok d', w3) /\
    checks_changed d' = true /\
    checks_to_compile d' = iterrows (checks_df d) /\
    written w3 = CHECKS_LAST_CSV :: written w2.
Proof.
  intros Hd Hch Hc Hne.
  pose proof (main_decide_settles sha _ _ _ Hd) as ([Hj1 _] & [Ho Hs] & Hwc).
  pose proof (main_decide_Ok sha _ _ _ Hd) as (w0 & Hdc & Hds & _).
  apply detect_checks_changes_Ok in Hdc as (_ & _ & _ & _ & _ & _ & Hwr & _).
  apply detect_schema_changes_Ok in Hds as (_ & _ & _ & Hl & _).
  destruct (Hwr Hch) as [Hcur _].
  pose proof (main_compile_Raise _ _ _ _ _ _ _ Hc) as (Hj & Hdata & Hl2 & Hs2 & Hw2 & _).
  assert (checks_last_csv w1 = Some (current_csv_of (checks_df d))) as Hl1 by congruence.
  split; [done|].
  split; [rewrite (main_after_decide sha agent iso _ _ _ Hd); exact Hc|].
  split; [done|]. split; [congruence|].
  destruct (main_decide_reread sha w2 (checks_df d) (current_schema d))
    as (w3 & _ & Hmd & _ & Hw); [congruence | congruence | done | |].
  { split; [|congruence]. rewrite <- Ho. by apply observe_columns_data. }
  eexists _, w3. split; [exact Hmd|]. done.
Qed.

Lemma aborted_run_is_retried_witness :
  exists d w1 e w2,
    main_decide sha_id world_cr = (Ok d, w1) /\
    main_compile sha_id agent_fails_B iso_count d w1 = (Raise e, w2) /\
    workflow_cache w2 = Missing /\
    exists d' w3, main_decide sha_id w2 = (Ok d', w3) /\
      checks_changed d' = true /\ checks_to_compile d' = [rowB_two_lines].
Proof.
  eexists _, _, _, _.
  split; [vm_compute; reflexivity|].
  split; [vm_compute; reflexivity|].
  edestruct (aborted_run_is_retried sha_id agent_fails_B iso_count world_cr)
    as (_ & _ & _ & Hw & d' & w3 & Hmd & Hc & Hs & _);
    [vm_compute; reflexivity | vm_compute; reflexivity | vm_compute; reflexivity
    | vm_compute; discriminate |].
  split; [exact Hw|]. exists d', w3. split; [exact Hmd|]. split; [exact Hc | exact Hs].
Defined.


Lemma targets_of_empty (row : gmap string value) :
  targets_of row = ∅ <-> parse_targets (get row "target_table") = [].
Proof.
  unfold targets_of. split; [|by intros ->].
  destruct (parse_targets _) as [|x l]; [done|].
  intros H. exfalso. assert (x ∈ (∅ : gset string)) as Hx; [|set_solver].
  rewrite <- H. set_solver.
Qed.

Lemma list_to_set_target_tables (df : DataFrame) :
  is_empty df = false ->
  (list_to_set (target_tables_of df) : gset string) = ⋃ (map targets_of (iterrows df)).
Proof.
  intros He. unfold target_tables_of. rewrite He.
  apply set_eq. intros x.
  rewrite elem_of_list_to_set. unfold sorted.
  rewrite merge_sort_Permutation. apply elem_of_elements.
Qed.

Lemma iterrows_no_columns (df : DataFrame) (row : gmap string value) :
  columns df = [] -> row ∈ iterrows df -> row = ∅.
Proof.
  unfold iterrows. intros -> Hin.
  apply list_elem_of_fmap in Hin as (r & -> & _). done.
Qed.

(** Rule 2 as the code applies it: every target table counts as changed, so
    a row is selected exactly when it has a target table at all. *)
Lemma select_checks_schema_changed (df : DataFrame) :
  select_checks false true (target_tables_of df) df =
    List.filter (fun row => bool_decide (parse_targets (get row "target_table") <> []))
                (iterrows df).
Proof.
  unfold select_checks. simpl.
  apply filter_ext_in. intros row Hin%list_elem_of_In.
  apply bool_decide_ext.
  rewrite <- targets_of_empty.
  destruct (is_empty df) eqn:He.
  - unfold target_tables_of. rewrite He. simpl.
    rewrite intersection_empty_r_L.
    split; [done|]. intros Hne. exfalso. apply Hne.
    apply targets_of_empty.
    destruct (columns df) as [|c cs] eqn:Ec.
    + by rewrite (iterrows_no_columns df row Ec Hin).
    + unfold is_empty in He. rewrite Ec in He.
      unfold iterrows in Hin. destruct (rows df); [|discriminate].
      by apply elem_of_nil in Hin.
  - rewrite (list_to_set_target_tables df He).
    assert (targets_of row ⊆ ⋃ (map targets_of (iterrows df))) as Hsub.
    { intros x Hx. apply elem_of_union_list. exists (targets_of row).
      split; [|done]. by apply list_elem_of_fmap_2. }
    by rewrite (subseteq_intersection_1_L _ _ Hsub).
Qed.

(** A row without a target table is never selected by rule 2. *)
Lemma select_checks_untargeted (schema_changed : bool) (tables : list string)
    (df : DataFrame) (row : gmap string value) :
  parse_targets (get row "target_table") = [] ->
  row ∉ select_checks false schema_changed tables df.
Proof.
  intros Hno Hin. unfold select_checks in Hin.
  destruct schema_changed; simpl in Hin; [|by apply elem_of_nil in Hin].
  apply list_elem_of_In, filter_In in Hin as [_ Hb].
  apply bool_decide_eq_true in Hb. apply Hb.
  apply targets_of_empty in Hno. rewrite Hno. apply intersection_empty_l_L.
Qed.



(** C1 (as amended). When the registry is unchanged and the schema detector
    reports a change, the scheduler applies rule 2 with every target table
    of the registry as the set of changed tables: the checks selected are
    exactly those with at least one normalized target table. *)
Theorem schema_change_schedules_targeted (sha : string -> string) (w w1 : world)
    (d : decision) :
  main_decide sha w = (Ok d, w1) ->
  checks_changed d = false -> schema_changed d = true ->
  checks_to_compile d
    = spec_schedule false (list_to_set (target_tables d)) (iterrows (checks_df d)) /\
  checks_to_compile d
    = List.filter (fun row => bool_decide (parse_targets (get row "target_table") <> []))
                  (iterrows (checks_df d)).
Proof.
  intros (_ & _ & _ & Ht & _ & ->)%main_decide_Ok Hc Hs.
  rewrite Hc, Hs. split; [reflexivity|].
  rewrite Ht. apply select_checks_schema_changed.
Qed.

Lemma schema_change_schedules_targeted_witness :
  exists d w1,
    main_decide sha_id world_users_changed = (Ok d, w1) /\
    checks_changed d = false /\ schema_changed d = true /\
    checks_to_compile d
      = List.filter (fun row => bool_decide (parse_targets (get row "target_table") <> []))
                    (iterrows (checks_df d)).
Proof.
  eexists _, _.
  split; [vm_compute; reflexivity|].
  split; [reflexivity|]. split; [reflexivity|].
  eapply (schema_change_schedules_targeted sha_id world_users_changed);
    [vm_compute; reflexivity | reflexivity | reflexivity].
Defined.

(** C1 (as stated) fails: only the table [users] differs from the snapshot,
    so the precise set of changed tables is [{users}] and rule 2 selects B
    alone; the run selects A, B and C. *)
Lemma schedule_is_not_table_precise :
  exists d w1,
    main_decide sha_id world_users_changed = (Ok d, w1) /\
    checks_changed d = false /\ schema_changed d = true /\
    spec_changed_tables snapshot_before (current_schema d) = {[ "users" ]} /\
    map key_for (spec_schedule false {[ "users" ]} (iterrows (checks_df d))) = ["B::b"] /\
    map key_for (checks_to_compile d) = ["A::a"; "B::b"; "C::c"].
Proof.
  eexists _, _.
  split; [vm_compute; reflexivity|].
  split; [reflexivity|]. split; [reflexivity|].
  split; [vm_compute; reflexivity|].
  split; vm_compute; reflexivity.
Qed.

(** ** Failure of the oracle *)




(** ** Persisting the cache *)

(** C8 (as amended). [save_workflows] rewrites the cache file in place: it
    opens the file for writing, which empties it, and then dumps the cache.
    It returns normally with the file holding the whole cache; between the
    two operations the file exists and is empty, and a reader then obtains
    the empty cache. *)
Theorem save_workflows_in_place (wf : gmap string value) (w : world) :
  exists w_open,
    worlds_through (save_workflows_steps wf) w = [w; w_open; (save_workflows wf w).2] /\
    (save_workflows wf w).1 = Ok tt /\
    workflow_cache (save_workflows wf w).2 = Holds wf /\
    cache_seen (save_workflows wf w).2 = Ok wf /\
    written (save_workflows wf w).2 = WORKFLOW_CACHE :: written w /\
    workflow_cache w_open = Unreadable /\
    cache_seen w_open = Ok ∅.
Proof.
  eexists. split; [reflexivity|]. repeat split.
Qed.

(** C8 (as stated) fails: while the cache [cache_old] is replaced by
    [cache_new], a reader can find a file that yields neither of them. *)
Lemma save_workflows_not_atomic :
  exists w_mid,
    w_mid ∈ worlds_through (save_workflows_steps cache_new) world_cached /\
    cache_seen world_cached = Ok cache_old /\
    cache_seen (save_workflows cache_new world_cached).2 = Ok cache_new /\
    workflow_cache w_mid = Unreadable /\
    cache_seen w_mid <> Ok cache_old /\
    cache_seen w_mid <> Ok cache_new.
Proof.
  eexists. split; [right; left|].
  split; [reflexivity|]. split; [reflexivity|]. split; [reflexivity|].
  split; vm_compute; discriminate.
Qed.

(** ** Normalization of target tables *)

Lemma lower_nonempty (s : string) : lower s = EmptyString -> s = EmptyString.
Proof. by destruct s. Qed.

(** On a string, every name returned is non-empty. *)
Lemma parse_targets_str_nonempty (s x : string) :
  x ∈ parse_targets (VStr s) -> x <> EmptyString.
Proof.
  simpl. intros (y & -> & Hy)%list_elem_of_fmap Hx.
  apply list_elem_of_In, filter_In in Hy as [_ Hy].
  apply lower_nonempty in Hx. by rewrite Hx in Hy.
Qed.

Lemma parse_targets_None : parse_targets VNone = [].
Proof. reflexivity. Qed.

(** C9 (the code departs from it). A string is split on commas, trimmed,
    lower-cased and its empty entries are dropped; a list is trimmed and
    lower-cased but keeps its empty entries. A check whose only target is
    blank thus has the empty name as its target table and is selected by
    rule 2. *)
Theorem parse_targets_list_keeps_empty :
  parse_targets (VStr " Users , ,ORDERS") = ["users"; "orders"] /\
  parse_targets (VList [VStr " Users "; VStr " "; VStr "ORDERS"])
    = ["users"; EmptyString; "orders"] /\
  parse_targets (VList [VStr " "]) = [EmptyString] /\
  target_tables_of registry_blank = [EmptyString] /\
  select_checks false true (target_tables_of registry_blank) registry_blank
    = iterrows registry_blank.
Proof. repeat split; vm_compute; reflexivity. Qed.

(** ** The model on small inputs *)

Example strip_lower_ex : lower (strip "  Users ") = "users".
Proof. reflexivity. Qed.

Example split_ex : split "," "a,,b," = ["a"; EmptyString; "b"; EmptyString].
Proof. reflexivity. Qed.

Example str_list_ex : str (VList [VStr "a"; VInt (-3); VBool true]) = "['a', -3, True]".
Proof. vm_compute. reflexivity. Qed.

Example json_dumps_sorts_keys :
  json_dumps (VDict [("b", VInt 2); ("a", VList [VInt 1; VNone])])
  = json_dumps (VDict [("a", VList [VInt 1; VNone]); ("b", VInt 2)]).
Proof. vm_compute. reflexivity. Qed.

Example key_for_ex : key_for rowB = "B::b".
Proof. vm_compute. reflexivity. Qed.

Example stable_csv_registry :
  _stable_csv registry_abc
  = "check_id,check_name,target_table" +:+ LF
    +:+ "A,a,orders" +:+ LF
    +:+ "B,b," +:+ String DQ ("users,orders" +:+ String DQ LF)
    +:+ "C,c,events" +:+ LF.
Proof. vm_compute. reflexivity. Qed.

Example empty_registry_sentinel : current_csv_of no_frame = "check_id" +:+ LF.
Proof. reflexivity. Qed.

Example universal_newlines_ex :
  universal_newlines
    ("a" +:+ String "013" LF +:+ "b" +:+ String "013" "c" +:+ LF +:+ String "013" EmptyString)
  = "a" +:+ LF +:+ "b" +:+ LF +:+ "c" +:+ LF +:+ LF.
Proof. reflexivity. Qed.

Example stable_csv_registry_cr :
  current_csv_of registry_cr
  = "check_id,check_name,description,target_table" +:+ LF
    +:+ "B,b," +:+ String DQ ("first" +:+ String "013" LF +:+ "second")
    +:+ String DQ ("," +:+ String DQ ("users,orders" +:+ String DQ LF)) /\
  read_text (current_csv_of registry_cr)
  = "check_id,check_name,description,target_table" +:+ LF
    +:+ "B,b," +:+ String DQ ("first" +:+ LF +:+ "second")
    +:+ String DQ ("," +:+ String DQ ("users,orders" +:+ String DQ LF)).
Proof. split; vm_compute; reflexivity. Qed.

Example first_run_schedules_abc :
  exists r w1,
    main sha_id agent_ok iso_count world_fresh = (Ok r, w1) /\
    map key_for (checks_to_compile (decided r)) = ["A::a"; "B::b"; "C::c"] /\
    compiled r = 3 /\
    written w1 = [WORKFLOW_CACHE; SCHEMA_COLS_CACHE; CHECKS_LAST_CSV].
Proof. eexists _, _. split; [vm_compute; reflexivity|]. repeat split. Qed.


(** * Further properties of the code *)

(** ** The schema detector (agent.py, lines 46-60 and 96-119) *)

Lemma load_csv_spec (name : string) (w : world) :
  load_csv name w =
    (match data_csv w name with
     | Missing => Ok no_frame
     | Unreadable => Raise ParserError
     | Holds df => Ok df
     end, w).
Proof.
  unfold load_csv. io_unfold. destruct (data_csv w name) eqn:E; simpl; rewrite ?E; done.
Qed.

Lemma observe_columns_step (t : string) (tables : list string)
    (current : gmap string (list string)) (w : world) :
  data_csv w t <> Unreadable ->
  observe_columns (t :: tables) current w
  = observe_columns tables (<[t := observed_columns (data_csv w) t]> current) w.
Proof.
  intros Hr. simpl. unfold mbind, io_bind. rewrite load_csv_spec.
  unfold observed_columns. destruct (data_csv w t); done.
Qed.

Lemma observe_columns_lookup (tables : list string) (w : world) :
  forall current cur,
    observe_columns tables current w = (Ok cur, w) ->
    forall t, cur !! t = if decide (t ∈ tables)
                         then Some (observed_columns (data_csv w) t)
                         else current !! t.
Proof.
  induction tables as [|t0 tables IH]; intros current cur Ho t.
  - simpl in Ho. injection Ho as <-. by rewrite decide_False by apply not_elem_of_nil.
  - assert (data_csv w t0 <> Unreadable) as Hr.
    { intros Hu. simpl in Ho. unfold mbind, io_bind in Ho.
      rewrite load_csv_spec, Hu in Ho. discriminate. }
    { rewrite (observe_columns_step _ _ _ _ Hr) in Ho.
      rewrite (IH _ _ Ho t).
      destruct (decide (t ∈ tables)) as [Hin|Hnin].
      * by rewrite decide_True by (by right).
      * destruct (decide (t = t0)) as [->|Hne].
        -- rewrite decide_True by (by left). apply lookup_insert_eq.
        -- rewrite decide_False by (intros [?|?]%elem_of_cons; done).
           by apply lookup_insert_ne. }
Qed.

Lemma observe_columns_unreadable (tables : list string) (w : world) (t : string) :
  t ∈ tables -> data_csv w t = Unreadable ->
  forall current, observe_columns tables current w = (Raise ParserError, w).
Proof.
  intros Hin Hu. induction tables as [|t0 tables IH]; intros current.
  - by apply elem_of_nil in Hin.
  - simpl. unfold mbind, io_bind. rewrite load_csv_spec.
    destruct (decide (t0 = t)) as [->|Hne].
    + by rewrite Hu.
    + apply elem_of_cons in Hin as [->|Hin]; [done|].
      destruct (data_csv w t0); [by apply IH | done | by apply IH].
Qed.

(** X1. The mapping the schema detector returns has an entry for exactly the
    tables asked for; a table with a CSV file has the labels of that file,
    in order, and a table without a file has the empty list. *)
Theorem detect_schema_changes_current (tables : list string) (w w' : world)
    (changed : bool) (cur : gmap string (list string)) :
  detect_schema_changes tables w = (Ok (changed, cur), w') ->
  forall t,
    (t ∈ tables -> cur !! t = Some (observed_columns (data_csv w) t)) /\
    (t ∉ tables -> cur !! t = None) /\
    (t ∈ tables -> data_csv w t = Missing -> cur !! t = Some []).
Proof.
  intros Hd t.
  apply detect_schema_changes_Ok in Hd as ([Ho _] & _ & Hdata & _).
  pose proof (observe_columns_world tables ∅ w') as Hw.
  destruct (observe_columns tables ∅ w') as [o w0] eqn:E. simpl in *. subst.
  pose proof (observe_columns_lookup _ _ _ _ E t) as Hl. rewrite Hdata in Hl.
  split; [|split].
  - intros Hin. by rewrite decide_True in Hl.
  - intros Hnin. by rewrite decide_False in Hl.
  - intros Hin Hm. rewrite decide_True in Hl by done.
    rewrite Hl. unfold observed_columns. by rewrite Hm.
Qed.

Lemma detect_schema_changes_current_witness :
  exists changed cur w',
    detect_schema_changes ["users"; "ghost"] world_fresh = (Ok (changed, cur), w') /\
    cur !! "users" = Some ["id"; "email"] /\ cur !! "ghost" = Some [] /\
    cur !! "orders" = None.
Proof.
  eexists _, _, _. split; [vm_compute; reflexivity|].
  pose proof (detect_schema_changes_current ["users"; "ghost"] world_fresh _ _ _
                ltac:(vm_compute; reflexivity)) as H.
  split; [|split].
  - apply (H "users"). by left.
  - apply (H "ghost"); [right; left | reflexivity].
  - apply (H "orders"). intros Hin.
    repeat (apply elem_of_cons in Hin as [Hin|Hin]; [discriminate Hin|]).
    by apply elem_of_nil in Hin.
Defined.

Lemma detect_schema_changes_Holds (tables : list string) (w : world)
    (prev cur : gmap string (list string)) :
  schema_cols_cache w = Holds prev ->
  observe_columns tables ∅ w = (Ok cur, w) ->
  (detect_schema_changes tables w).1 = Ok (bool_decide (prev <> cur), cur).
Proof.
  intros Hs Ho. unfold detect_schema_changes.
  unfold mbind at 1. unfold io_bind at 1. rewrite Ho.
  io_unfold. rewrite Hs. simpl. rewrite Hs. simpl.
  by destruct (bool_decide (prev <> cur)).
Qed.

(** X2. With a stored snapshot, the schema detector reports no change
    exactly when the snapshot has an entry for exactly the tables asked for,
    each with the column list now observed (order included). Without a
    change the world is left as it is; with a change the snapshot is
    replaced by the mapping returned. *)
Theorem detect_schema_changes_unchanged_iff (tables : list string) (w w' : world)
    (prev cur : gmap string (list string)) (changed : bool) :
  schema_cols_cache w = Holds prev ->
  detect_schema_changes tables w = (Ok (changed, cur), w') ->
  (changed = false <->
     forall t, prev !! t = if decide (t ∈ tables)
                           then Some (observed_columns (data_csv w) t) else None) /\
  (changed = false -> w' = w) /\
  (changed = true ->
     schema_cols_cache w' = Holds cur /\ written w' = SCHEMA_COLS_CACHE :: written w).
Proof.
  intros Hs Hd.
  pose proof (detect_schema_changes_Ok _ _ _ _ _ Hd)
    as ([Ho Hc] & _ & Hdata & _ & _ & _ & _ & Hwr & Hsame).
  pose proof (observe_columns_world tables ∅ w') as Hw.
  destruct (observe_columns tables ∅ w') as [o w0] eqn:E. simpl in *. subst.
  pose proof (observe_columns_lookup _ _ _ _ E) as Hl. rewrite Hdata in Hl.
  assert (observe_columns tables ∅ w = (Ok cur, w)) as Ho.
  { pose proof (observe_columns_world tables ∅ w) as Hw.
    pose proof (observe_columns_data tables ∅ w w' (eq_sym Hdata)) as Hd'.
    rewrite E in Hd'. simpl in Hd'.
    destruct (observe_columns tables ∅ w) as [o w0]. simpl in *. by subst. }
  pose proof (detect_schema_changes_Holds _ _ _ _ Hs Ho) as Hflag.
  rewrite Hd in Hflag. simpl in Hflag. injection Hflag as Hflag.
  split; [|split; [exact Hsame|]].
  - rewrite Hflag. rewrite bool_decide_eq_false. split.
    + intros Heq%dec_stable t. rewrite Heq, Hl. by rewrite lookup_empty.
    + intros Hall Hne. apply Hne. apply map_eq. intros t.
      rewrite Hall, Hl. by rewrite lookup_empty.
  - intros Ht. split; [done | by apply Hwr].
Qed.

Lemma detect_schema_changes_unchanged_iff_witness :
  exists changed cur w',
    schema_cols_cache world_users_changed = Holds snapshot_before /\
    detect_schema_changes ["events"; "orders"; "users"] world_users_changed
      = (Ok (changed, cur), w') /\
    changed = true /\ schema_cols_cache w' = Holds cur.
Proof.
  eexists _, _, _. split; [reflexivity|]. split; [vm_compute; reflexivity|].
  split; [reflexivity|].
  apply (detect_schema_changes_unchanged_iff ["events"; "orders"; "users"]
           world_users_changed _ snapshot_before _ true eq_refl
           ltac:(vm_compute; reflexivity)).
  reflexivity.
Defined.

(** X3. A table file that exists and cannot be parsed is fatal: the schema
    detector raises and writes nothing, and a run whose registry names such
    a table raises with the schema snapshot and the workflow cache as they
    were, after the registry snapshot has already been brought up to date
    (it holds the canonical text of the registry as written, or a text that
    reads back with the same digest). *)
Theorem unreadable_table_aborts_run (sha : string -> string)
    (agent : gmap string value -> gmap string (list string) -> outcome (gmap string value))
    (iso : nat -> string) (w : world) (df : DataFrame) (t : string) :
  checks_json w = Holds df ->
  t ∈ target_tables_of df ->
  data_csv w t = Unreadable ->
  detect_schema_changes (target_tables_of df) w = (Raise ParserError, w) /\
  exists w', main sha agent iso w = (Raise ParserError, w') /\
    registry_recorded sha df w' /\
    schema_cols_cache w' = schema_cols_cache w /\
    workflow_cache w' = workflow_cache w.
Proof.
  intros Hj Hin Hu.
  assert (forall w0, data_csv w0 = data_csv w ->
            detect_schema_changes (target_tables_of df) w0 = (Raise ParserError, w0)) as Hdet.
  { intros w0 Hd. unfold detect_schema_changes. unfold mbind at 1. unfold io_bind at 1.
    rewrite (observe_columns_unreadable _ w0 t Hin); [done|]. by rewrite Hd. }
  split; [by apply Hdet|].
  pose proof (detect_checks_changes_cases sha w) as Hc. rewrite Hj in Hc.
  destruct Hc as (changed & w' & Hc).
  pose proof (detect_checks_changes_Ok sha _ _ _ _ Hc) as (Hr & Hd & Hs & Hwc & _).
  exists w'. split; [|done].
  unfold main, main_decide. unfold mbind, io_bind. rewrite Hc.
  by rewrite (Hdet w' Hd).
Qed.

Lemma unreadable_table_aborts_run_witness :
  checks_json (with_data data_abc_broken world_fresh) = Holds registry_abc /\
  "users" ∈ target_tables_of registry_abc /\
  data_abc_broken "users" = Unreadable /\
  exists w', main sha_id agent_ok iso_count (with_data data_abc_broken world_fresh)
             = (Raise ParserError, w') /\
             workflow_cache w' = Missing.
Proof.
  assert ("users" ∈ target_tables_of registry_abc) as Hin.
  { vm_compute. right. right. left. }
  split; [reflexivity|]. split; [exact Hin|]. split; [reflexivity|].
  destruct (unreadable_table_aborts_run sha_id agent_ok iso_count
              (with_data data_abc_broken world_fresh) registry_abc "users"
              eq_refl Hin eq_refl) as (_ & w' & Hm & _ & _ & Hw).
  exists w'. split; [exact Hm | exact Hw].
Defined.

(** X4. A schema snapshot that exists and cannot be parsed is not treated
    as absent: with an up-to-date registry snapshot and readable tables the
    run raises [JSONDecodeError] and leaves the world exactly as it was, so
    every later run fails in the same way. *)
Theorem corrupt_schema_snapshot_is_fatal (sha : string -> string)
    (agent : gmap string value -> gmap string (list string) -> outcome (gmap string value))
    (iso : nat -> string) (w : world) (df : DataFrame) :
  registry_settled sha df w ->
  schema_cols_cache w = Unreadable ->
  (forall t, data_csv w t <> Unreadable) ->
  detect_schema_changes (target_tables_of df) w = (Raise JSONDecodeError, w) /\
  main sha agent iso w = (Raise JSONDecodeError, w) /\
  (load_workflows w).1 = Ok (loaded w).
Proof.
  intros Hr Hs Hread.
  assert (detect_schema_changes (target_tables_of df) w = (Raise JSONDecodeError, w)) as Hd.
  { destruct (observe_columns_readable (target_tables_of df) w Hread ∅) as (cur & Ho).
    unfold detect_schema_changes. unfold mbind at 1. unfold io_bind at 1. rewrite Ho.
    io_unfold. rewrite Hs. simpl. by rewrite Hs. }
  split; [exact Hd|]. split; [|by rewrite load_workflows_spec].
  unfold main, main_decide. unfold mbind, io_bind.
  rewrite (detect_checks_changes_settled sha _ _ Hr). by rewrite Hd.
Qed.

Lemma corrupt_schema_snapshot_is_fatal_witness :
  registry_settled sha_id registry_abc world_corrupt_schema /\
  main sha_id agent_ok iso_count world_corrupt_schema
    = (Raise JSONDecodeError, world_corrupt_schema).
Proof.
  assert (registry_settled sha_id registry_abc world_corrupt_schema) as Hr.
  { split; [reflexivity|]. eexists. split; reflexivity. }
  split; [exact Hr|].
  apply (corrupt_schema_snapshot_is_fatal sha_id agent_ok iso_count
           world_corrupt_schema registry_abc Hr eq_refl).
  intros t. unfold world_corrupt_schema, data_abc, table_of. simpl.
  repeat case_decide; discriminate.
Defined.

Lemma observe_columns_same_schema (tables : list string) (w : world)
    (data : string -> stored DataFrame) :
  same_schema (data_csv w) data ->
  forall current,
    (observe_columns tables current (with_data data w)).1
    = (observe_columns tables current w).1.
Proof.
  intros Hsame. induction tables as [|t tables IH]; intros current; [done|].
  simpl. unfold mbind, io_bind. rewrite !load_csv_spec. simpl.
  destruct (Hsame t) as [Hu Ho]. unfold observed_columns in Ho.
  destruct (data_csv w t) as [| |df] eqn:E1; destruct (data t) as [| |df'] eqn:E2;
    simpl in *; try (by apply IH);
    try (exfalso; (by apply Hu in E1 || by apply Hu in E2 || (destruct Hu as [Hu1 Hu2];
         (discriminate (Hu1 eq_refl) || discriminate (Hu2 eq_refl)))));
    try (rewrite <- Ho; by apply IH); try (rewrite Ho; by apply IH); try done.
Qed.

(** X5. The schema detector looks at column labels only: once the snapshot
    agrees with the data, replacing the data files by files with the same
    labels (new or changed rows) is not reported as a change and nothing is
    written. *)
Theorem row_changes_are_not_schema_changes (tables : list string) (w : world)
    (cur : gmap string (list string)) (data : string -> stored DataFrame) :
  schema_settled tables cur w ->
  same_schema (data_csv w) data ->
  detect_schema_changes tables (with_data data w)
    = (Ok (false, cur), with_data data w).
Proof.
  intros [Ho Hc] Hsame.
  apply detect_schema_changes_settled. split; [|done].
  by rewrite observe_columns_same_schema.
Qed.

Lemma row_changes_are_not_schema_changes_witness :
  exists r w1,
    main sha_id agent_ok iso_count world_fresh = (Ok r, w1) /\
    same_schema (data_csv w1) data_abc_more_rows /\
    detect_schema_changes (target_tables (decided r)) (with_data data_abc_more_rows w1)
      = (Ok (false, current_schema (decided r)), with_data data_abc_more_rows w1).
Proof.
  eexists _, _. split; [vm_compute; reflexivity|].
  assert (same_schema data_abc data_abc_more_rows) as Hsame.
  { intros t. unfold data_abc_more_rows, observed_columns.
    destruct (decide (t = "users")) as [->|Hne]; [|done].
    split; [split; discriminate | reflexivity]. }
  split; [exact Hsame|].
  apply row_changes_are_not_schema_changes; [|exact Hsame].
  split; [vm_compute; reflexivity | reflexivity].
Defined.

(** ** The registry detector with the canonicalizer (lines 26-43, 63-93) *)

Lemma same_table_is_empty (df1 df2 : DataFrame) :
  same_table df1 df2 -> is_empty df1 = is_empty df2.
Proof.
  intros [Hc Hr]. unfold is_empty.
  destruct (columns df1) as [|c1 cs1] eqn:E1.
  - apply Permutation_nil_l in Hc. by rewrite <- Hc.
  - destruct (columns df2) as [|c2 cs2] eqn:E2.
    + by apply Permutation_nil_r in Hc.
    + destruct (rows df1) as [|r1 rs1] eqn:E3.
      * apply Permutation_nil_l in Hr. by rewrite <- Hr.
      * destruct (rows df2) as [|r2 rs2] eqn:E4; [by apply Permutation_nil_r in Hr | done].
Qed.

(** The canonical text does not depend on the order of columns and rows,
    as long as rows sharing a sort key are written alike. *)
Lemma canonical_text_order_free (df1 df2 : DataFrame) :
  same_table df1 df2 ->
  (forall r r', r ∈ rows df1 -> r' ∈ rows df1 ->
     canonical_key df1 r = canonical_key df1 r' ->
     canonical_line df1 r = canonical_line df1 r') ->
  current_csv_of df1 = current_csv_of df2.
Proof.
  intros Hsame Htie. unfold current_csv_of.
  rewrite <- (same_table_is_empty _ _ Hsame).
  destruct (is_empty df1); [done|].
  destruct Hsame as [Hcols Hrows].
  rewrite !_stable_csv_unfold.
  assert (canonical_key df2 = canonical_key df1) as ->.
  { unfold canonical_key. by rewrite (sorted_Permutation _ _ Hcols). }
  rewrite <- (sorted_Permutation _ _ Hcols).
  f_equal. f_equal.
  apply (sorted_by_key_images
           (csv_row (filter (fun c => c <> "_sortkey") (sorted (columns df1))))).
  - intros a b [r [-> Hr]]%list_elem_of_fmap [r' [-> Hr']]%list_elem_of_fmap Hk.
    simpl in *. by apply Htie.
  - by apply fmap_Permutation.
Qed.

(** X6. A registry re-serialized with its columns and rows in another order
    is not reported as changed: when the snapshot agrees with the registry
    [df1] and the source now yields [df2], the same table up to order (rows
    sharing a sort key being written alike), the registry detector returns
    [changed = false] and writes nothing. *)
Theorem reordered_registry_is_unchanged (sha : string -> string) (w : world)
    (df1 df2 : DataFrame) :
  registry_settled sha df1 w ->
  same_table df1 df2 ->
  (forall r r', r ∈ rows df1 -> r' ∈ rows df1 ->
     canonical_key df1 r = canonical_key df1 r' ->
     canonical_line df1 r = canonical_line df1 r') ->
  detect_checks_changes sha (with_registry (Holds df2) w)
    = (Ok (false, df2), with_registry (Holds df2) w).
Proof.
  intros [_ (s & Hs & Hh)] Hsame Htie.
  apply detect_checks_changes_settled. split; [done|].
  exists s. split; [done|]. rewrite Hh. f_equal.
  by apply canonical_text_order_free.
Qed.

Lemma reordered_registry_is_unchanged_witness :
  exists r w1,
    main sha_id agent_ok iso_count world_fresh = (Ok r, w1) /\
    same_table registry_abc registry_cba /\
    detect_checks_changes sha_id (with_registry (Holds registry_cba) w1)
      = (Ok (false, registry_cba), with_registry (Holds registry_cba) w1).
Proof.
  eexists _, _. split; [vm_compute; reflexivity|].
  assert (same_table registry_abc registry_cba) as Hsame.
  { split; simpl.
    - etrans; [apply perm_skip, perm_swap | apply perm_swap].
    - etrans; [apply perm_skip, perm_swap | apply perm_swap]. }
  split; [exact Hsame|].
  apply (reordered_registry_is_unchanged sha_id _ registry_abc registry_cba);
    [split; [reflexivity | eexists; split; reflexivity] | exact Hsame |].
  intros r r' Hr Hr' Hk. simpl in Hr, Hr'.
  repeat match goal with
         | H : _ ∈ _ :: _ |- _ => apply elem_of_cons in H as [->|H]
         | H : _ ∈ [] |- _ => by apply elem_of_nil in H
         end;
    first [reflexivity | vm_compute in Hk; discriminate Hk].
Defined.

(** ** The union of target tables (lines 168-175) *)

(** X7. The list of target tables is sorted in ascending order, has no
    duplicates, and holds exactly the normalized target names of the rows
    of the registry. *)
Theorem target_tables_of_spec (df : DataFrame) :
  StronglySorted String.le (target_tables_of df) /\
  NoDup (target_tables_of df) /\
  forall t, t ∈ target_tables_of df <->
            exists row, row ∈ iterrows df /\ t ∈ parse_targets (get row "target_table").
Proof.
  unfold target_tables_of. destruct (is_empty df) eqn:He.
  - split; [constructor|]. split; [constructor|].
    intros t. split; [by intros ?%elem_of_nil|].
    intros (row & Hin & Ht). exfalso.
    destruct (columns df) as [|c cs] eqn:Ec.
    + rewrite (iterrows_no_columns df row Ec Hin) in Ht. by apply elem_of_nil in Ht.
    + unfold is_empty in He. rewrite Ec in He.
      unfold iterrows in Hin. destruct (rows df); [|discriminate].
      by apply elem_of_nil in Hin.
  - unfold sorted. split; [apply StronglySorted_merge_sort; apply _|].
    split.
    + rewrite merge_sort_Permutation. apply NoDup_elements.
    + intros t. rewrite merge_sort_Permutation, elem_of_elements, elem_of_union_list.
      split.
      * intros (X & [row [-> Hrow]]%list_elem_of_fmap & Ht).
        exists row. split; [done|]. unfold targets_of in Ht.
        by apply elem_of_list_to_set in Ht.
      * intros (row & Hrow & Ht). exists (targets_of row).
        split; [by apply list_elem_of_fmap_2|].
        unfold targets_of. by apply elem_of_list_to_set.
Qed.

(** ** Runs on edge inputs *)

(** X8. With a registry that has no rows, a run compiles nothing and never
    opens the workflow cache file for writing, whatever the earlier state,
    as long as the schema snapshot is absent or parseable: no table is
    observed and the schema mapping is empty. On a first run the registry
    snapshot is the fixed text [check_id] and a line feed. *)
Theorem empty_registry_run (sha : string -> string)
    (agent : gmap string value -> gmap string (list string) -> outcome (gmap string value))
    (iso : nat -> string) (w : world) (df : DataFrame) :
  checks_json w = Holds df ->
  rows df = [] ->
  schema_cols_cache w <> Unreadable ->
  exists r w',
    main sha agent iso w = (Ok r, w') /\
    checks_to_compile (decided r) = [] /\ compiled r = 0 /\
    target_tables (decided r) = [] /\ current_schema (decided r) = ∅ /\
    final_workflows r = loaded w /\
    workflow_cache w' = workflow_cache w /\
    (exists l, written w' = (l ++ written w)%list /\ WORKFLOW_CACHE ∉ l) /\
    (checks_last_csv w = None -> checks_last_csv w' = Some ("check_id" +:+ LF)).
Proof.
  intros Hj Hrows Hs.
  assert (is_empty df = true) as He.
  { unfold is_empty. rewrite Hrows. by destruct (columns df). }
  assert (target_tables_of df = []) as Ht by (unfold target_tables_of; by rewrite He).
  assert (iterrows df = []) as Hit by (unfold iterrows; by rewrite Hrows).
  pose proof (detect_checks_changes_cases sha w) as Hc. rewrite Hj in Hc.
  destruct Hc as (changed & w0 & Hc).
  pose proof (detect_checks_changes_Ok sha _ _ _ _ Hc)
    as (_ & _ & Hsc & Hwc & _ & Hboot & Hch & Hsame).
  assert (exists sc w1, detect_schema_changes [] w0 = (Ok (sc, ∅), w1)) as (sc & w1 & Hd).
  { unfold detect_schema_changes. io_unfold. simpl.
    destruct (schema_cols_cache w0) as [| |prev] eqn:E; simpl; rewrite ?E; simpl.
    - eauto.
    - exfalso. apply Hs. by rewrite <- Hsc.
    - destruct (bool_decide _); simpl; eauto. }
  pose proof (detect_schema_changes_Ok _ _ _ _ _ Hd)
    as (_ & _ & _ & Hl1 & Hwc1 & _ & _ & Hch1 & Hsame1).
  assert (main_decide sha w
          = (Ok {| checks_changed := changed; checks_df := df; target_tables := [];
                   schema_changed := sc; current_schema := ∅; workflows := loaded w1;
                   checks_to_compile := [] |}, w1)) as Hmd.
  { unfold main_decide. unfold mbind at 1. unfold io_bind at 1. rewrite Hc.
    unfold mbind at 1. unfold io_bind at 1. rewrite Ht, Hd.
    unfold mbind, io_bind. rewrite load_workflows_spec. unfold mret, io_ret.
    do 3 f_equal. unfold select_checks. rewrite Hit. by destruct (changed || sc). }
  eexists _, w1. rewrite (main_after_decide sha agent iso _ _ _ Hmd).
  unfold main_compile; simpl. split; [reflexivity|]. simpl.
  do 4 (split; [done|]).
  split; [unfold loaded; by rewrite Hwc1, Hwc|].
  split; [congruence|]. split.
  - destruct changed, sc.
    + exists [SCHEMA_COLS_CACHE; CHECKS_LAST_CSV].
      rewrite (Hch1 eq_refl). destruct (Hch eq_refl) as [_ ->].
      split; [done|]. intros Hin. repeat (apply elem_of_cons in Hin as [Hin|Hin];
        [discriminate Hin|]). by apply elem_of_nil in Hin.
    + exists [CHECKS_LAST_CSV]. rewrite (Hsame1 eq_refl).
      destruct (Hch eq_refl) as [_ ->].
      split; [done|]. intros Hin. repeat (apply elem_of_cons in Hin as [Hin|Hin];
        [discriminate Hin|]). by apply elem_of_nil in Hin.
    + exists [SCHEMA_COLS_CACHE]. rewrite (Hch1 eq_refl), (Hsame eq_refl).
      split; [done|]. intros Hin. repeat (apply elem_of_cons in Hin as [Hin|Hin];
        [discriminate Hin|]). by apply elem_of_nil in Hin.
    + exists []. rewrite (Hsame1 eq_refl), (Hsame eq_refl).
      split; [done | apply not_elem_of_nil].
  - intros Hnone. rewrite Hl1. destruct (Hch (Hboot Hnone)) as [-> _].
    unfold current_csv_of. by rewrite He.
Qed.

Lemma empty_registry_run_witness :
  checks_json world_no_checks = Holds registry_none /\
  exists r w',
    main sha_id agent_fails_B iso_count world_no_checks = (Ok r, w') /\
    compiled r = 0 /\ workflow_cache w' = Holds cache_old.
Proof.
  split; [reflexivity|].
  destruct (empty_registry_run sha_id agent_fails_B iso_count world_no_checks
              registry_none eq_refl eq_refl ltac:(discriminate))
    as (r & w' & Hm & _ & Hc & _ & _ & _ & Hw & _).
  exists r, w'. split; [exact Hm|]. split; [exact Hc | exact Hw].
Defined.

(** ** The compilation loop (lines 221-248) *)

Lemma compile_checks_clock (sha : string -> string)
    (agent : gmap string value -> gmap string (list string) -> outcome (gmap string value))
    (iso : nat -> string) df tt ctx cs :
  forall wf n w wf' n' w',
    compile_checks sha agent iso df tt ctx cs wf n w = (Ok (wf', n'), w') ->
    clock w' = clock w + 2 * length cs.
Proof.
  induction cs as [|chk cs IH]; intros wf n w wf' n' w'; simpl.
  - intros [= <- <- <-]. lia.
  - destruct (agent chk ctx) as [out|e]; [|discriminate].
    io_unfold. simpl. intros H. apply IH in H. simpl in H. lia.
Qed.

(** X9. Checks with the same [check_id] and [check_name] share one cache
    key, and the last of them in the schedule wins: when the loop
    completes, the key of a check that no later scheduled check shares
    holds the entry built from the oracle's answer for that check, stamped
    with the two clock readings taken for it; every check takes exactly two
    readings. *)
Theorem compile_checks_last_writer (sha : string -> string)
    (agent : gmap string value -> gmap string (list string) -> outcome (gmap string value))
    (iso : nat -> string) (df : DataFrame) (tt : list string)
    (ctx : gmap string (list string)) (pre post : list (gmap string value))
    (chk : gmap string value) :
  forall (wf : gmap string value) (n : nat) (w : world)
         (wf' : gmap string value) (n' : nat) (w' : world),
    compile_checks sha agent iso df tt ctx (pre ++ (chk :: post))%list wf n w
      = (Ok (wf', n'), w') ->
    key_for chk ∉ map key_for post ->
    exists out,
      agent chk ctx = Ok out /\
      wf' !! key_for chk
        = Some (entry_of iso out (clock w + 2 * length pre) (clock w + 2 * length pre + 1)
                  (checks_hash_of sha df) (schema_value tt ctx)) /\
      clock w' = clock w + 2 * length (pre ++ (chk :: post))%list.
Proof.
  induction pre as [|c pre IH]; intros wf n w wf' n' w' Hc Hk.
  - pose proof (compile_checks_clock _ _ _ _ _ _ _ _ _ _ _ _ _ Hc) as Hclock.
    simpl in Hc. destruct (agent chk ctx) as [out|e] eqn:Ea; [|discriminate].
    io_unfold. simpl in Hc.
    apply compile_checks_Ok in Hc as (_ & _ & Hother & _).
    exists out. split; [done|]. split; [|exact Hclock].
    rewrite (Hother _ Hk), lookup_insert_eq. simpl.
    do 2 f_equal; lia.
  - pose proof (compile_checks_clock _ _ _ _ _ _ _ _ _ _ _ _ _ Hc) as Hclock.
    simpl in Hc. destruct (agent c ctx) as [out0|e] eqn:Ea; [|discriminate].
    io_unfold. simpl in Hc.
    apply IH in Hc as (out & Ho & Hl & _); [|done].
    exists out. split; [done|]. split; [|exact Hclock].
    rewrite Hl. simpl. do 2 f_equal; lia.
Qed.

Lemma compile_checks_last_writer_witness :
  exists wf' n' w',
    compile_checks sha_id agent_ok iso_count registry_abc [] ∅
      ([rowA] ++ (rowA :: [rowB]))%list ∅ 0 world_fresh = (Ok (wf', n'), w') /\
    (key_for rowA ∉ map key_for [rowB]) /\
    n' = 3 /\ clock w' = 6 /\
    exists out, wf' !! key_for rowA
                = Some (entry_of iso_count out 2 3 (checks_hash_of sha_id registry_abc)
                          (schema_value [] ∅)).
Proof.
  eexists _, _, _. split; [vm_compute; reflexivity|].
  assert (key_for rowA ∉ map key_for [rowB]) as Hk.
  { vm_compute. intros Hin. apply elem_of_cons in Hin as [Hin|Hin]; [discriminate|].
    by apply elem_of_nil in Hin. }
  split; [exact Hk|]. split; [reflexivity|].
  destruct (compile_checks_last_writer sha_id agent_ok iso_count registry_abc [] ∅
              [rowA] [rowB] rowA ∅ 0 world_fresh _ _ _ ltac:(vm_compute; reflexivity) Hk)
    as (out & _ & Hl & Hc).
  split; [exact Hc|]. exists out. exact Hl.
Defined.

(** ** Normalized target names (lines 142-154) *)

Lemma is_space_lower_char (c : ascii) : is_space (lower_char c) = is_space c.
Proof. destruct c as [[] [] [] [] [] [] [] []]; reflexivity. Qed.

Lemma lower_char_idemp (c : ascii) : lower_char (lower_char c) = lower_char c.
Proof. destruct c as [[] [] [] [] [] [] [] []]; reflexivity. Qed.

Lemma lower_char_comma (c : ascii) :
  bool_decide (","%char = lower_char c) = bool_decide (","%char = c).
Proof. destruct c as [[] [] [] [] [] [] [] []]; reflexivity. Qed.

Lemma lower_idemp (s : string) : lower (lower s) = lower s.
Proof. induction s as [|c s IH]; simpl; [done | by rewrite lower_char_idemp, IH]. Qed.

Lemma lstrip_lower (s : string) : lstrip (lower s) = lower (lstrip s).
Proof.
  induction s as [|c s IH]; simpl; [done|].
  rewrite is_space_lower_char. by destruct (is_space c).
Qed.

Lemma rstrip_lower (s : string) : rstrip (lower s) = lower (rstrip s).
Proof.
  induction s as [|c s IH]; simpl; [done|].
  rewrite IH, is_space_lower_char.
  destruct (rstrip s); simpl; [by destruct (is_space c) | done].
Qed.

Lemma strip_lower (s : string) : strip (lower s) = lower (strip s).
Proof. unfold strip. by rewrite lstrip_lower, rstrip_lower. Qed.

Lemma lstrip_head_ok (s : string) : head_ok (lstrip s).
Proof.
  induction s as [|c s IH]; simpl; [done|].
  destruct (is_space c) eqn:E; [done | exact E].
Qed.

Lemma head_ok_lstrip (s : string) : head_ok s -> lstrip s = s.
Proof. destruct s as [|c s]; simpl; [done|]. by intros ->. Qed.

Lemma rstrip_head_ok (s : string) : head_ok s -> head_ok (rstrip s).
Proof.
  destruct s as [|c s]; simpl; [done|]. intros Hc.
  destruct (rstrip s); simpl; [by rewrite Hc | done].
Qed.

Lemma rstrip_idemp (s : string) : rstrip (rstrip s) = rstrip s.
Proof.
  induction s as [|c s IH]; simpl; [done|].
  destruct (rstrip s) as [|c' r] eqn:E.
  - destruct (is_space c) eqn:Ec; simpl; [done | by rewrite Ec].
  - change (rstrip (String c (String c' r))) with
      (match rstrip (String c' r) with
       | EmptyString => if is_space c then EmptyString else String c EmptyString
       | r0 => String c r0
       end).
    by rewrite IH.
Qed.

Lemma strip_idemp (s : string) : strip (strip s) = strip s.
Proof.
  unfold strip.
  rewrite (head_ok_lstrip (rstrip (lstrip s)))
    by apply rstrip_head_ok, lstrip_head_ok.
  apply rstrip_idemp.
Qed.

Lemma contains_lstrip (c : ascii) (s : string) :
  contains c s = false -> contains c (lstrip s) = false.
Proof.
  induction s as [|c' s IH]; simpl; [done|].
  intros [H1 H2]%orb_false_iff.
  destruct (is_space c'); [by apply IH | simpl; by rewrite H1, H2].
Qed.

Lemma contains_rstrip (c : ascii) (s : string) :
  contains c s = false -> contains c (rstrip s) = false.
Proof.
  induction s as [|c' s IH]; simpl; [done|].
  intros [H1 H2]%orb_false_iff. specialize (IH H2).
  destruct (rstrip s) as [|c'' r]; simpl in *.
  - destruct (is_space c'); simpl; [done | by rewrite H1].
  - by rewrite H1, IH.
Qed.

Lemma contains_lower_comma (s : string) :
  contains "," (lower s) = contains "," s.
Proof.
  induction s as [|c s IH]; simpl; [done|]. by rewrite lower_char_comma, IH.
Qed.

Lemma split_nonempty (sep : ascii) (s : string) : split sep s <> [].
Proof.
  destruct s as [|c s]; simpl; [done|].
  destruct (decide (c = sep)); [done|]. by destruct (split sep s).
Qed.

(** No piece of a split holds the separator. *)
Lemma split_pieces (sep : ascii) (s : string) :
  forall y, y ∈ split sep s -> contains sep y = false.
Proof.
  induction s as [|c s IH]; simpl; intros y Hy.
  - apply list_elem_of_singleton in Hy as ->. done.
  - destruct (decide (c = sep)) as [->|Hne].
    + apply elem_of_cons in Hy as [->|Hy]; [done | by apply IH].
    + destruct (split sep s) as [|h t] eqn:E.
      * apply list_elem_of_singleton in Hy as ->. simpl.
        rewrite bool_decide_eq_false_2 by congruence. done.
      * apply elem_of_cons in Hy as [->|Hy].
        -- simpl. rewrite bool_decide_eq_false_2 by congruence.
           apply IH. by left.
        -- apply IH. by right.
Qed.

Lemma split_no_sep (sep : ascii) (x : string) :
  contains sep x = false -> split sep x = [x].
Proof.
  induction x as [|c x IH]; simpl; [done|].
  intros [H1 H2]%orb_false_iff. apply bool_decide_eq_false in H1.
  rewrite decide_False by congruence. by rewrite (IH H2).
Qed.

Lemma split_app_sep (sep : ascii) (x rest : string) :
  contains sep x = false ->
  split sep (x +:+ String sep rest) = x :: split sep rest.
Proof.
  induction x as [|c x IH]; simpl.
  - intros _. by rewrite decide_True.
  - intros [H1 H2]%orb_false_iff. apply bool_decide_eq_false in H1.
    rewrite decide_False by congruence.
    change (String.append x (String sep rest)) with (x +:+ String sep rest).
    by rewrite (IH H2).
Qed.

(** Splitting a join of separator-free pieces gives the pieces back. *)
Lemma split_join (sep : ascii) (l : list string) :
  l <> [] -> (forall x, x ∈ l -> contains sep x = false) ->
  split sep (join (String sep EmptyString) l) = l.
Proof.
  induction l as [|x l IH]; [done|]. intros _ Hl.
  destruct l as [|y l].
  - simpl. apply split_no_sep, Hl. by left.
  - change (join (String sep EmptyString) (x :: y :: l))
      with (x +:+ String sep (join (String sep EmptyString) (y :: l))).
    rewrite split_app_sep by (apply Hl; by left).
    f_equal. apply IH; [done|]. intros z Hz. apply Hl. by right.
Qed.

Lemma parse_targets_str_normal_aux (s x : string) :
  x ∈ parse_targets (VStr s) ->
  x <> EmptyString /\ strip x = x /\ lower x = x /\ contains "," x = false.
Proof.
  intros Hx. split; [by eapply parse_targets_str_nonempty|].
  simpl in Hx. apply list_elem_of_fmap in Hx as (y & -> & Hy).
  apply list_elem_of_In, filter_In in Hy as [Hy _]. apply list_elem_of_In in Hy.
  split; [by rewrite strip_lower, strip_idemp|].
  split; [apply lower_idemp|].
  rewrite contains_lower_comma. unfold strip.
  apply contains_rstrip, contains_lstrip. by apply (split_pieces "," s).
Qed.

(** X10. Every name [parse_targets] returns for a string is non-empty, has
    no surrounding white space, no upper-case letter and no comma. *)
Theorem parse_targets_str_normal (s x : string) :
  x ∈ parse_targets (VStr s) ->
  x <> EmptyString /\ strip x = x /\ lower x = x /\ contains "," x = false.
Proof.
  intros Hx. simpl in Hx. apply list_elem_of_fmap in Hx as (y & -> & Hy).
  apply list_elem_of_In, filter_In in Hy as [Hy Ht]. apply list_elem_of_In in Hy.
  split.
  { intros He%lower_nonempty. by rewrite He in Ht. }
  split; [by rewrite strip_lower, strip_idemp|].
  split; [apply lower_idemp|].
  rewrite contains_lower_comma. unfold strip.
  apply contains_rstrip, contains_lstrip. by apply (split_pieces "," s).
Qed.

Lemma parse_targets_str_normal_witness :
  "orders" ∈ parse_targets (VStr " Users , ,ORDERS") /\ strip "orders" = "orders".
Proof.
  assert ("orders" ∈ parse_targets (VStr " Users , ,ORDERS")) as Hin.
  { vm_compute. right. left. }
  split; [exact Hin|].
  apply (parse_targets_str_normal " Users , ,ORDERS" "orders" Hin).
Defined.

Lemma map_id_on {A : Type} (f : A -> A) (l : list A) :
  (forall x, x ∈ l -> f x = x) -> map f l = l.
Proof.
  induction l as [|x l IH]; intros H; simpl; [done|].
  rewrite H by (by left). f_equal. apply IH. intros y Hy. apply H. by right.
Qed.

Lemma filter_keeps_all {A : Type} (p : A -> bool) (l : list A) :
  (forall x, x ∈ l -> p x = true) -> List.filter p l = l.
Proof.
  induction l as [|x l IH]; intros H; simpl; [done|].
  rewrite H by (by left). f_equal. apply IH. intros y Hy. apply H. by right.
Qed.

(** X11. Normalization is idempotent through the registry's own notation:
    joining the names returned for a string with commas and parsing the
    result again returns the same names. *)
Theorem parse_targets_join_idemp (s : string) :
  parse_targets (VStr (join "," (parse_targets (VStr s)))) = parse_targets (VStr s).
Proof.
  set (l := parse_targets (VStr s)).
  assert (forall x, x ∈ l ->
            x <> EmptyString /\ strip x = x /\ lower x = x /\ contains "," x = false)
    as Hl by (intros x Hx; by apply (parse_targets_str_normal_aux s)).
  destruct l as [|x0 l0] eqn:El; [reflexivity|].
  cbn [parse_targets].
  rewrite (split_join "," (x0 :: l0)); [|done|intros x Hx; by apply Hl].
  rewrite filter_keeps_all.
  - apply map_id_on. intros x Hx. destruct (Hl x Hx) as (_ & Hs & Hlow & _).
    by rewrite Hs, Hlow.
  - intros x Hx. destruct (Hl x Hx) as (Hne & Hs & _). rewrite Hs.
    by destruct x.
Qed.

(** ** Status of an execution (core_agents/execute_agent.py, lines 43-58) *)

Lemma append_cons (c : ascii) (a b : string) : String c a +:+ b = String c (a +:+ b).
Proof. reflexivity. Qed.

Lemma append_nil (b : string) : EmptyString +:+ b = b.
Proof. reflexivity. Qed.

Lemma upper_app (a b : string) : upper (a +:+ b) = upper a +:+ upper b.
Proof.
  induction a as [|c a IH]; [done|].
  rewrite append_cons. simpl. by rewrite IH, append_cons.
Qed.

Lemma upper_char_idemp (c : ascii) : upper_char (upper_char c) = upper_char c.
Proof. destruct c as [[] [] [] [] [] [] [] []]; reflexivity. Qed.

Lemma upper_lower_char (c : ascii) : upper_char (lower_char c) = upper_char c.
Proof. destruct c as [[] [] [] [] [] [] [] []]; reflexivity. Qed.

Lemma upper_idemp (s : string) : upper (upper s) = upper s.
Proof. induction s as [|c s IH]; simpl; [done | by rewrite upper_char_idemp, IH]. Qed.

Lemma upper_lower (s : string) : upper (lower s) = upper s.
Proof. induction s as [|c s IH]; simpl; [done | by rewrite upper_lower_char, IH]. Qed.

Lemma startswith_app (p x : string) : startswith p (p +:+ x) = true.
Proof.
  induction p as [|c p IH]; [done|].
  rewrite append_cons. simpl.
  rewrite bool_decide_eq_true_2 by done. exact IH.
Qed.

Lemma str_in_app (needle a b : string) : str_in needle (a +:+ needle +:+ b) = true.
Proof.
  induction a as [|c a IH].
  - rewrite append_nil.
    destruct (needle +:+ b) eqn:E; simpl; rewrite <- E, startswith_app; done.
  - rewrite append_cons. simpl. rewrite IH. apply orb_true_r.
Qed.

(** X12. [PASS] wins over every other status: whenever the output holds the
    letters of PASS in any mix of cases, anywhere (inside a longer word, or
    beside FAIL or ERROR), the status is [PASS]. *)
Theorem parse_status_pass_wins (a m b : string) :
  upper m = "PASS" ->
  _parse_status (Some (a +:+ m +:+ b)) = "PASS".
Proof.
  intros Hm. unfold _parse_status. simpl.
  by rewrite !upper_app, Hm, str_in_app.
Qed.

Lemma parse_status_pass_wins_witness :
  upper "pass" = "PASS" /\ _parse_status (Some ("com" +:+ "pass" +:+ ": FAIL 3 rows")) = "PASS".
Proof. split; [reflexivity|]. by apply parse_status_pass_wins. Defined.

(** X13. On ASCII output the status does not depend on the case of the
    output: upper-casing or lower-casing the output gives the same status.
    The status is always one of the five words, and is [UNKNOWN] for a
    missing output. *)
Theorem parse_status_case_free (stdout : option string) :
  (forall s, stdout = Some s -> ascii_text s) ->
  _parse_status (upper <$> stdout) = _parse_status stdout /\
  _parse_status (lower <$> stdout) = _parse_status stdout /\
  _parse_status stdout ∈ ["PASS"; "FAIL"; "SKIPPED"; "ERROR"; "UNKNOWN"] /\
  _parse_status None = "UNKNOWN".
Proof.
  intros _.
  split; [|split; [|split; [|reflexivity]]].
  - destruct stdout as [s|]; [|done]. unfold _parse_status. simpl. by rewrite upper_idemp.
  - destruct stdout as [s|]; [|done]. unfold _parse_status. simpl. by rewrite upper_lower.
  - unfold _parse_status.
    repeat match goal with
           | |- context [if ?b then _ else _] => destruct b
           end; set_unfold; tauto.
Qed.

Lemma parse_status_case_free_witness :
  ascii_text "Result: Pass" /\
  _parse_status (Some "RESULT: PASS") = "PASS" /\
  _parse_status (Some "result: pass") = "PASS" /\
  _parse_status (Some "Result: Pass") = "PASS".
Proof.
  assert (ascii_text "Result: Pass") as Ha.
  { unfold ascii_text. simpl. repeat (constructor; [reflexivity|]). constructor. }
  split; [exact Ha|].
  destruct (parse_status_case_free (Some "Result: Pass")) as (Hu & Hl & _ & _).
  { intros s [= <-]. exact Ha. }
  assert (_parse_status (Some "Result: Pass") = "PASS") as Hp by reflexivity.
  split; [rewrite <- Hp; exact Hu|]. split; [rewrite <- Hp; exact Hl | exact Hp].
Defined.

Lemma last_cons_nonempty {A : Type} (x : A) (l : list A) (d : A) :
  l <> [] -> List.last (x :: l) d = List.last l d.
Proof. by destruct l. Qed.

(** The last element kept by a filter, seen in the list filtered. *)
Lemma last_map_filter {A B : Type} (f : A -> B) (p : A -> bool) (d : B) (l : list A) :
  (List.filter p l = [] /\ List.last (map f (List.filter p l)) d = d) \/
  (exists pre x post,
     l = (pre ++ x :: post)%list /\ p x = true /\
     List.last (map f (List.filter p l)) d = f x /\
     forall y, y ∈ post -> p y = false).
Proof.
  induction l as [|x l IH]; [by left|].
  destruct IH as [[Hnil Hlast]|(pre & x' & post & -> & Hp & Hlast & Hpost)].
  - simpl. destruct (p x) eqn:Hx.
    + right. exists [], x, l. rewrite Hnil. simpl.
      split; [done|]. split; [done|]. split; [done|].
      intros y Hy. destruct (p y) eqn:Hy'; [|done].
      assert (In y (List.filter p l)) as Hin by (apply filter_In; by rewrite <- list_elem_of_In).
      rewrite Hnil in Hin. done.
    + by left.
  - right. exists (x :: pre), x', post.
    split; [done|]. split; [done|]. split; [|done].
    simpl. destruct (p x); [|done].
    simpl. rewrite <- Hlast.
    change (List.last (f x :: map f (List.filter p (pre ++ x' :: post))) d
            = List.last (map f (List.filter p (pre ++ x' :: post))) d).
    apply last_cons_nonempty.
    rewrite List.filter_app. simpl. rewrite Hp.
    intros Hnil. apply (f_equal (@length B)) in Hnil.
    rewrite length_map, length_app in Hnil. simpl in Hnil. lia.
Qed.

Lemma strip_truthy (s : string) : truthy (strip s) = false <-> strip s = EmptyString.
Proof. by destruct (strip s). Qed.

(** X14. The status line has no surrounding white space. It is empty
    exactly when every line of the output is blank; otherwise it is the
    trimmed text of the last line that is not blank. *)
Theorem status_line_spec (s : string) :
  strip (_status_line (Some s)) = _status_line (Some s) /\
  (_status_line (Some s) = EmptyString ->
     forall ln, ln ∈ splitlines s -> strip ln = EmptyString) /\
  (_status_line (Some s) <> EmptyString ->
     exists pre ln post,
       splitlines s = (pre ++ ln :: post)%list /\
       _status_line (Some s) = strip ln /\
       forall ln', ln' ∈ post -> strip ln' = EmptyString).
Proof.
  destruct s as [|c s].
  { simpl. split; [done|]. split; [by intros _ ln ?%elem_of_nil | done]. }
  unfold _status_line.
  destruct (last_map_filter strip (fun ln => truthy (strip ln)) EmptyString
              (splitlines (String c s)))
    as [[Hnil ->]|(pre & ln & post & Hl & Hp & -> & Hpost)].
  - split; [done|]. split; [|done].
    intros _ ln Hin. destruct (truthy (strip ln)) eqn:Ht; [|by apply strip_truthy].
    assert (In ln (List.filter (fun ln => truthy (strip ln)) (splitlines (String c s))))
      as Hin' by (apply filter_In; by rewrite <- list_elem_of_In).
    rewrite Hnil in Hin'. done.
  - split; [apply strip_idemp|]. split.
    + intros He. rewrite He in Hp. done.
    + intros _. exists pre, ln, post. split; [done|]. split; [done|].
      intros ln' Hin. by apply strip_truthy, Hpost.
Qed.

(** ** Code fences (core_agents/tools/dataframe_tool.py, lines 11-17) *)

Lemma substring_all (s : string) : substring 0 (String.length s) s = s.
Proof. induction s as [|c s IH]; simpl; [done | by rewrite IH]. Qed.

Lemma substring_app_l (a b : string) : substring 0 (String.length a) (a +:+ b) = a.
Proof.
  induction a as [|c a IH].
  - rewrite append_nil. by destruct b.
  - rewrite append_cons. simpl. by rewrite IH.
Qed.

Lemma substring_app_r (a b : string) :
  substring (String.length a) (String.length b) (a +:+ b) = b.
Proof.
  induction a as [|c a IH].
  - rewrite append_nil. apply substring_all.
  - rewrite append_cons. simpl. exact IH.
Qed.

Lemma length_app_str (a b : string) :
  String.length (a +:+ b) = String.length a + String.length b.
Proof.
  induction a as [|c a IH]; [done|]. rewrite append_cons. simpl. by rewrite IH.
Qed.

Lemma append_assoc_str (a b c : string) : (a +:+ b) +:+ c = a +:+ (b +:+ c).
Proof.
  induction a as [|x a IH]; [done|]. rewrite !append_cons. by rewrite IH.
Qed.

Lemma endswith_app (a p : string) : endswith p (a +:+ p) = true.
Proof.
  unfold endswith. rewrite length_app_str.
  replace (String.length a + String.length p - String.length p) with (String.length a) by lia.
  rewrite substring_app_r, bool_decide_eq_true_2 by done.
  rewrite andb_true_r. apply Nat.leb_le. lia.
Qed.

Lemma drop_last_app (a p : string) : drop_last (String.length p) (a +:+ p) = a.
Proof.
  unfold drop_last. rewrite length_app_str.
  replace (String.length a + String.length p - String.length p) with (String.length a) by lia.
  apply substring_app_l.
Qed.

Lemma rstrip_app_kept (x y : string) :
  rstrip y = y -> y <> EmptyString -> rstrip (x +:+ y) = x +:+ y.
Proof.
  intros Hy Hne. induction x as [|c x IH]; [by rewrite append_nil|].
  rewrite append_cons. simpl. rewrite IH.
  destruct (x +:+ y) eqn:E; [|done].
  destruct x; [rewrite append_nil in E; done | rewrite append_cons in E; done].
Qed.

Lemma skip_fence_word_tag (tag rest : string) :
  Forall (fun c => is_fence_word c = true) (list_ascii_of_string tag) ->
  skip_fence_word (tag +:+ String "010" rest) = String "010" rest.
Proof.
  induction tag as [|c tag IH]; intros Hall; [done|].
  rewrite append_cons. simpl in *.
  apply Forall_cons in Hall as [-> Hall]. by apply IH.
Qed.

Lemma drop_opening_fence_tag (tag rest : string) :
  Forall (fun c => is_fence_word c = true) (list_ascii_of_string tag) ->
  drop_opening_fence (FENCE +:+ tag +:+ String "010" rest) = rest.
Proof.
  intros Htag. unfold drop_opening_fence.
  rewrite startswith_app.
  assert (substring 3 (String.length (FENCE +:+ tag +:+ String "010" rest) - 3)
            (FENCE +:+ tag +:+ String "010" rest)
          = tag +:+ String "010" rest) as ->.
  { unfold FENCE. rewrite !append_cons, append_nil. simpl.
    rewrite Nat.sub_0_r. apply substring_all. }
  rewrite (skip_fence_word_tag _ _ Htag).
  by rewrite bool_decide_eq_true_2.
Qed.

(** X15. Unwrapping a fenced block gives the body back unchanged: for a
    tag made of word characters, [+] or [-] (possibly empty) and any body,
    the text made of an opening fence, the tag, a line feed, the body and a
    closing fence is reduced to exactly the body. *)
Theorem strip_fences_fenced (tag body : string) :
  Forall (fun c => is_fence_word c = true) (list_ascii_of_string tag) ->
  _strip_fences (FENCE +:+ tag +:+ String "010" (body +:+ FENCE)) = body.
Proof.
  intros Htag.
  assert (strip (FENCE +:+ tag +:+ String "010" (body +:+ FENCE))
          = FENCE +:+ tag +:+ String "010" (body +:+ FENCE)) as Hs.
  { unfold strip.
    assert (lstrip (FENCE +:+ tag +:+ String "010" (body +:+ FENCE))
            = FENCE +:+ tag +:+ String "010" (body +:+ FENCE)) as -> by reflexivity.
    replace (FENCE +:+ tag +:+ String "010" (body +:+ FENCE))
      with ((FENCE +:+ tag +:+ String "010" body) +:+ FENCE).
    - by apply rstrip_app_kept.
    - by rewrite !append_assoc_str, append_cons. }
  unfold _strip_fences. rewrite Hs, startswith_app.
  rewrite (drop_opening_fence_tag _ _ Htag).
  rewrite endswith_app. apply (drop_last_app body FENCE).
Qed.

Lemma strip_fences_fenced_witness :
  Forall (fun c => is_fence_word c = true) (list_ascii_of_string "python") /\
  _strip_fences (FENCE +:+ "python" +:+ String "010" ("print(1)" +:+ FENCE)) = "print(1)".
Proof.
  assert (Forall (fun c => is_fence_word c = true) (list_ascii_of_string "python")) as H.
  { simpl. repeat constructor. }
  split; [exact H|]. by apply strip_fences_fenced.
Defined.

(** ** Targets as the planner reads them (core_agents/plan_agent.py) *)

(** X16. For a string [target_table] the planner's targets, lower-cased,
    are the scheduler's normalized targets; without the key both are
    empty; for a JSON null the scheduler has no target while the planner
    has the one target [None]. *)
Theorem plan_targets_vs_parse_targets (check_row : gmap string value) :
  match check_row !! "target_table" with
  | Some (VStr s) => map lower (plan_targets check_row) = parse_targets (VStr s)
  | Some VNone =>
      plan_targets check_row = ["None"] /\
      parse_targets (get check_row "target_table") = []
  | None =>
      plan_targets check_row = [] /\
      parse_targets (get check_row "target_table") = []
  | Some _ => True
  end.
Proof.
  unfold plan_targets, get.
  destruct (check_row !! "target_table") as [[]|] eqn:E; simpl; try done.
  by rewrite map_map.
Qed.

(** ** The planner log (core_agents/utils/plan_logging.py, lines 36-52) *)




(** ** Reading the cache in the dashboard (streamlit.py, lines 112-141) *)



Lemma find_first {A : Type} (f : A -> bool) (l : list A) (x : A) :
  x ∈ l -> f x = true -> exists y, List.find f l = Some y.
Proof.
  intros Hin Hf. destruct (List.find f l) eqn:E; [eauto|].
  apply list_elem_of_In in Hin.
  pose proof (find_none f l E x Hin). congruence.
Qed.

Lemma key_for_prefix (chk : gmap string value) :
  startswith (str (get chk "check_id") +:+ "::") (key_for chk) = true /\
  truthy (key_for chk) = true.
Proof.
  unfold key_for. split.
  - rewrite <- (append_assoc_str _ "::" _). apply startswith_app.
  - destruct (str (get chk "check_id")); done.
Qed.

(** X19. The dashboard finds what the run stored: after a completed run,
    for a scheduled check whose key is the only key of the cache beginning
    with its [check_id] and two colons, [runs_for_check] returns, for any
    order of the keys in the file, the entry the run stored under the key
    of that check. *)
Theorem runs_for_check_finds_entry (sha : string -> string)
    (agent : gmap string value -> gmap string (list string) -> outcome (gmap string value))
    (iso : nat -> string) (w w2 : world) (r : report) (chk : gmap string value)
    (items : list (string * value)) :
  main sha agent iso w = (Ok r, w2) ->
  chk ∈ checks_to_compile (decided r) ->
  NoDup (map fst items) ->
  list_to_map items = final_workflows r ->
  (forall k, k ∈ map fst items ->
     startswith (str (get chk "check_id") +:+ "::") k = true -> k = key_for chk) ->
  workflow_cache w2 = Holds (final_workflows r) /\
  exists e, final_workflows r !! key_for chk = Some e /\
            runs_for_check items (str (get chk "check_id")) = e.
Proof.
  intros Hm Hin Hnd Hitems Huniq.
  apply main_Ok in Hm as (d & w1 & Hd & Hc).
  apply main_compile_Ok in Hc as (<- & _ & _ & _ & _ & _ & Hne).
  destruct Hne as (Hw & _ & w0 & Hcomp).
  { intros He. rewrite He in Hin. by apply elem_of_nil in Hin. }
  split; [exact Hw|].
  apply compile_checks_Ok in Hcomp as (_ & _ & _ & Hfresh).
  destruct (Hfresh chk Hin) as (chk' & out & t1 & t2 & _ & _ & _ & Hl).
  eexists. split; [exact Hl|].
  rewrite <- Hitems in Hl.
  apply elem_of_list_to_map in Hl; [|exact Hnd].
  destruct (key_for_prefix chk) as [Hp Ht].
  unfold runs_for_check.
  destruct (find_first (fun kv => startswith (str (get chk "check_id") +:+ "::") kv.1)
              items _ Hl Hp) as ([k v] & Hf).
  rewrite Hf.
  apply find_some in Hf as [Hkv Hpk]. simpl in Hpk.
  apply list_elem_of_In in Hkv.
  assert (k = key_for chk) as ->.
  { apply Huniq; [|done]. apply list_elem_of_fmap. by exists (k, v). }
  rewrite Ht.
  apply (elem_of_list_to_map_1 (M := gmap string)) in Hkv; [|exact Hnd].
  apply (elem_of_list_to_map_1 (M := gmap string)) in Hl; [|exact Hnd].
  congruence.
Qed.

Lemma runs_for_check_finds_entry_witness :
  exists r w2,
    main sha_id agent_ok iso_count world_fresh = (Ok r, w2) /\
    rowA ∈ checks_to_compile (decided r) /\
    exists e, final_workflows r !! "A::a" = Some e /\
              runs_for_check (map_to_list (final_workflows r)) "A" = e.
Proof.
  eexists _, _. split; [vm_compute; reflexivity|].
  match goal with
  | |- rowA ∈ checks_to_compile (decided ?r) /\ _ =>
      assert (rowA ∈ checks_to_compile (decided r)) as Hin by (vm_compute; left);
      split; [exact Hin|];
      destruct (runs_for_check_finds_entry sha_id agent_ok iso_count world_fresh
                  (main sha_id agent_ok iso_count world_fresh).2 r rowA
                  (map_to_list (final_workflows r))) as (_ & e & He & Hr)
  end.
  - vm_compute. reflexivity.
  - exact Hin.
  - apply NoDup_fst_map_to_list.
  - apply list_to_map_to_list.
  - intros k Hk Hp. vm_compute in Hk.
    repeat (apply elem_of_cons in Hk as [->|Hk];
            [first [reflexivity | vm_compute in Hp; discriminate Hp]|]).
    by apply elem_of_nil in Hk.
  - exists e. split; [exact He | exact Hr].
Defined.

(** ** Repeated runs (agent.py, lines 63-119 and 160-250) *)

(** X20. When the canonical text of the registry holds no carriage return,
    a second run changes nothing: after a completed run, the two detectors
    run again with the registry and the data unchanged return
    [changed = false] and leave the world, with its write log, as it is; a
    second [main] schedules nothing, compiles nothing and writes no file,
    the workflow cache included. *)
Theorem second_run_changes_nothing (sha : string -> string)
    (agent agent' : gmap string value -> gmap string (list string) -> outcome (gmap string value))
    (iso iso' : nat -> string) (w w1 : world) (r : report) :
  main sha agent iso w = (Ok r, w1) ->
  cr_free (checks_df (decided r)) ->
  detect_checks_changes sha w1 = (Ok (false, checks_df (decided r)), w1) /\
  detect_schema_changes (target_tables (decided r)) w1
    = (Ok (false, current_schema (decided r)), w1) /\
  exists r', main sha agent' iso' w1 = (Ok r', w1) /\
    checks_changed (decided r') = false /\ schema_changed (decided r') = false /\
    checks_to_compile (decided r') = [] /\ compiled r' = 0.
Proof.
  intros (d & w0 & Hd & Hc)%main_Ok Hcr.
  pose proof (main_decide_settles sha _ _ _ Hd) as (Hr & Hs & _).
  pose proof (main_decide_Ok sha _ _ _ Hd) as (_ & _ & _ & Ht & _).
  apply main_compile_Ok in Hc as (Hdec & Hj & Hdc & Hl & Hsc & _).
  rewrite Hdec in *.
  apply registry_recorded_settled in Hr; [|done].
  destruct (settled_same_snapshots sha w0 w1 _ _ _ Hj Hdc Hl Hsc Hr Hs) as [Hr1 Hs1].
  split; [by apply detect_checks_changes_settled|].
  split; [rewrite Ht; by apply detect_schema_changes_settled|].
  destruct (main_settled sha agent' iso' w1 _ _ Hr1 Hs1) as (r' & Hm & ? & ? & ? & ? & _).
  by exists r'.
Qed.

Lemma second_run_changes_nothing_witness :
  exists r w1,
    main sha_id agent_ok iso_count world_fresh = (Ok r, w1) /\
    cr_free (checks_df (decided r)) /\
    exists r', main sha_id agent_fails_B iso_count w1 = (Ok r', w1) /\
               checks_to_compile (decided r') = [].
Proof.
  eexists _, _. split; [vm_compute; reflexivity|].
  split; [vm_compute; reflexivity|].
  edestruct (second_run_changes_nothing sha_id agent_ok agent_fails_B iso_count iso_count
               world_fresh) as (_ & _ & r' & Hm & _ & _ & Hs & _);
    [vm_compute; reflexivity | vm_compute; reflexivity |].
  exists r'. split; [exact Hm | exact Hs].
Defined.

(** X21. The snapshots are written by the detectors, before any
    compilation. So when detection reports a change and the compilation
    step then raises, [main] raises with both snapshots already overwritten
    and the workflow cache file as it was; when the canonical text of the
    registry holds no carriage return, the next run, with registry and data
    unchanged, reports no change and schedules nothing. *)
Theorem aborted_run_is_not_retried (sha : string -> string)
    (agent agent' : gmap string value -> gmap string (list string) -> outcome (gmap string value))
    (iso iso' : nat -> string) (w w1 w2 : world) (d : decision) (e : exn) :
  main_decide sha w = (Ok d, w1) ->
  checks_changed d || schema_changed d = true ->
  main_compile sha agent iso d w1 = (Raise e, w2) ->
  cr_free (checks_df d) ->
  (checks_changed d = true ->
     checks_last_csv w1 = Some (current_csv_of (checks_df d))) /\
  (schema_changed d = true -> schema_cols_cache w1 = Holds (current_schema d)) /\
  main sha agent iso w = (Raise e, w2) /\
  checks_last_csv w2 = checks_last_csv w1 /\
  schema_cols_cache w2 = schema_cols_cache w1 /\
  workflow_cache w2 = workflow_cache w /\
  exists r', main sha agent' iso' w2 = (Ok r', w2) /\
    checks_changed (decided r') = false /\ schema_changed (decided r') = false /\
    checks_to_compile (decided r') = [] /\ compiled r' = 0.
Proof.
  intros Hd Hch Hc Hcr.
  pose proof (main_decide_settles sha _ _ _ Hd) as (Hr & Hs & Hwc).
  apply registry_recorded_settled in Hr; [|done].
  pose proof (main_decide_Ok sha _ _ _ Hd) as (w0 & Hdc & Hds & Ht & _).
  apply detect_checks_changes_Ok in Hdc as (_ & _ & _ & _ & _ & _ & Hwr & _).
  apply detect_schema_changes_Ok in Hds as ([_ Hcur] & _ & _ & Hl & _).
  pose proof (main_compile_Raise _ _ _ _ _ _ _ Hc) as (Hj & Hdata & Hl2 & Hs2 & Hw2 & _).
  split; [intros Hc1; destruct (Hwr Hc1) as [Hx _]; congruence|].
  split; [done|].
  split; [rewrite (main_after_decide sha agent iso _ _ _ Hd); exact Hc|].
  do 2 (split; [done|]). split; [congruence|].
  destruct (settled_same_snapshots sha w1 w2 _ _ _ Hj Hdata Hl2 Hs2 Hr Hs) as [Hr1 Hs1].
  destruct (main_settled sha agent' iso' w2 _ _ Hr1 Hs1) as (r' & Hm & ? & ? & ? & ? & _).
  by exists r'.
Qed.

Lemma aborted_run_is_not_retried_witness :
  exists d w1 e w2,
    main_decide sha_id world_fresh = (Ok d, w1) /\
    checks_changed d || schema_changed d = true /\
    main_compile sha_id agent_fails_B iso_count d w1 = (Raise e, w2) /\
    cr_free (checks_df d) /\
    workflow_cache w2 = Missing /\
    exists r', main sha_id agent_ok iso_count w2 = (Ok r', w2) /\
               checks_to_compile (decided r') = [].
Proof.
  eexists _, _, _, _.
  split; [vm_compute; reflexivity|].
  split; [vm_compute; reflexivity|].
  split; [vm_compute; reflexivity|].
  split; [vm_compute; reflexivity|].
  edestruct (aborted_run_is_not_retried sha_id agent_fails_B agent_ok iso_count iso_count
               world_fresh) as (_ & _ & _ & _ & _ & Hw & r' & Hm & _ & _ & Hs & _);
    [vm_compute; reflexivity | vm_compute; reflexivity | vm_compute; reflexivity
    | vm_compute; reflexivity |].
  split; [exact Hw|]. exists r'. split; [exact Hm | exact Hs].
Defined.
